(** * TwitterVerification: the claim registry and its client

    A shallow embedding of the Solidity contract [TwitterVerification]
    (claim bookkeeping on top of UMA's Optimistic Oracle V3) and of the
    status check of the React client, with the properties of the
    claim lifecycle proved over it. *)

From Stdlib Require Import ZArith String List Bool Lia.
From stdpp Require Import base option gmap strings pretty.
Import ListNotations.

Local Open Scope string_scope.
Local Open Scope Z_scope.

(** ** Solidity values *)

Module Solidity.

(** [address] is a 160-bit word, [bytes32] a 256-bit word and [uint256]
    an unsigned 256-bit integer; all three are carried by [Z]. *)
Definition address := Z.
Definition bytes32 := Z.
Definition uint256 := Z.

(** [address(0)]. *)
Definition address_zero : address := 0.

(** [1 ether] in wei. *)
Definition ether : Z := 10 ^ 18.

(** The [n] low-order bytes of [z], most significant first. *)
Fixpoint be_bytes (n : nat) (z : Z) : string :=
  match n with
  | O => EmptyString
  | S k => be_bytes k (z / 256) +:+
           String (Ascii.ascii_of_N (Z.to_N (z mod 256))) EmptyString
  end.

(** [abi.encodePacked] of a [uint256]: the 32 bytes of the word, big
    endian, without any padding or length prefix. *)
Definition encodePacked_uint256 (x : uint256) : string := be_bytes 32 x.

(** The outcome of a call: it returns, or it reverts with a reason and
    every state change made so far is discarded. *)
Inductive Outcome (A : Type) : Type :=
| Success (a : A)
| Reverted (reason : string).
Arguments Success {A} a.
Arguments Reverted {A} reason.

(** A transaction body over a chain state [S]. *)
Definition Tx (S A : Type) : Type := S -> Outcome (A * S).

Definition ret {S A} (a : A) : Tx S A := fun s => Success (a, s).

Definition bind {S A B} (m : Tx S A) (k : A -> Tx S B) : Tx S B :=
  fun s =>
    match m s with
    | Success (a, s') => k a s'
    | Reverted r => Reverted r
    end.

Definition gets {S A} (f : S -> A) : Tx S A := fun s => Success (f s, s).

Definition modify {S} (f : S -> S) : Tx S unit := fun s => Success (tt, f s).

Definition revert {S A} (reason : string) : Tx S A := fun _ => Reverted reason.

(** [require(cond, reason)]. *)
Definition require {S} (cond : bool) (reason : string) : Tx S unit :=
  if cond then ret tt else revert reason.

(** Running a transaction on a chain state: a revert leaves the state as
    it was before the call. *)
Definition transact {S A} (tx : Tx S A) (s : S) : S * Outcome A :=
  match tx s with
  | Success (a, s') => (s', Success a)
  | Reverted r => (s, Reverted r)
  end.

End Solidity.
Export Solidity.

Notation "x <- m ;; k" := (bind m (fun x => k))
  (at level 100, m at next level, right associativity).
Notation "m ;; k" := (bind m (fun _ => k))
  (at level 100, right associativity).

(** ** The oracle interface *)

Module IOptimisticOracleV3.

(** Modelled from the spec: the declaration of the oracle's assertion
    record ([IOptimisticOracleV3.Assertion]) is not part of the sources;
    the fields are those of section 6 of the specification.  The
    registry reads [settled] and [expirationTime] only. *)
Record Assertion : Type := {
  validated : bool;
  resolved : bool;
  settlementResolution : bool;
  asserter : address;
  challenger : address;
  settlementTimestamp : Z;
  expirationTime : Z;
  settled : bool
}.

(** The four entry points of the oracle the registry calls.  The oracle
    is an external contract: each call is given the caller, the block
    timestamp and the oracle's own state [O], and may revert.  The
    registry asserts with the oracle's defaults, which name no callback
    recipient, so the oracle does not call back into the registry. *)
Class Oracle (O : Type) : Type := {
  assertTruthWithDefaults :
    address -> uint256 -> string -> address -> O -> Outcome (bytes32 * O);
  settleAndGetAssertionResult :
    address -> uint256 -> bytes32 -> O -> Outcome (bool * O);
  getAssertionResult : bytes32 -> O -> Outcome bool;
  getAssertion : bytes32 -> O -> Outcome Assertion
}.

End IOptimisticOracleV3.

(** ** The registry contract *)

(** [struct Claim]. *)
Record Claim : Type := {
  assertedClaim : string;
  claimer : address;
  twitterHandle : string;
  tweetText : string;
  assertionId : bytes32;
  isResolved : bool;
  isRewarded : bool
}.

(** The value every key of a Solidity mapping holds before it is written. *)
Definition zeroClaim : Claim :=
  {| assertedClaim := EmptyString; claimer := address_zero;
     twitterHandle := EmptyString; tweetText := EmptyString;
     assertionId := 0; isResolved := false; isRewarded := false |}.

Definition set_isResolved (b : bool) (c : Claim) : Claim :=
  {| assertedClaim := assertedClaim c; claimer := claimer c;
     twitterHandle := twitterHandle c; tweetText := tweetText c;
     assertionId := assertionId c; isResolved := b;
     isRewarded := isRewarded c |}.

Definition set_isRewarded (b : bool) (c : Claim) : Claim :=
  {| assertedClaim := assertedClaim c; claimer := claimer c;
     twitterHandle := twitterHandle c; tweetText := tweetText c;
     assertionId := assertionId c; isResolved := isResolved c;
     isRewarded := b |}.

(** The events of the contract. *)
Inductive Event : Type :=
| ClaimSubmitted (id : bytes32) (who : address) (handle text : string)
| ClaimResolved (id : bytes32) (truthful : bool)
| RewardPaid (id : bytes32) (who : address) (amount : Z).

(** [uint256 public constant REWARD_AMOUNT = 0.01 ether]. *)
Definition REWARD_AMOUNT : Z := ether / 100.

(** What a call sees of its surroundings: the registry's own address, the
    caller, the block's timestamp, and which accounts take a plain
    transfer of ether (an account whose code rejects it, or needs more
    than the gas stipend, makes [transfer] revert). *)
Record Env : Type := {
  this : address;
  msg_sender : address;
  block_timestamp : uint256;
  accepts_ether : address -> bool
}.

(** The chain state the registry's calls act on: the [claims] mapping, the
    registry's balance, the oracle ([oov3]), the events logged and the
    ether sent out so far. *)
Record State (O : Type) : Type := {
  claims : gmap bytes32 Claim;
  balance : Z;
  oov3 : O;
  events : list Event;
  sent : list (address * Z)
}.
Arguments claims {O} _.
Arguments balance {O} _.
Arguments oov3 {O} _.
Arguments events {O} _.
Arguments sent {O} _.

(** The bytes [submitClaim] builds with [abi.encodePacked]: the three
    string literals, the two string arguments and [block.timestamp], a
    [uint256], each appended as it is encoded. *)
Definition packedClaim (handle text : string) (timestamp : uint256) : string :=
  "Twitter user @" +:+ handle +:+
  " posted a tweet with the exact text: '" +:+ text +:+
  "' as of timestamp " +:+ encodePacked_uint256 timestamp.

Section Registry.

Context {O : Type} `{!IOptimisticOracleV3.Oracle O}.

Abbreviation State := (State O).
Abbreviation Tx := (Tx State).

(** Reading [claims[id]]: an unwritten key holds the zero record. *)
Definition claim_at (s : State) (id : bytes32) : Claim :=
  default zeroClaim (claims s !! id).

Definition read_claim (id : bytes32) : Tx Claim :=
  gets (fun s => claim_at s id).

(** Writing [claims[id] = c]. *)
Definition write_claim (id : bytes32) (c : Claim) : Tx unit :=
  modify (fun s =>
    {| claims := <[id := c]> (claims s); balance := balance s;
       oov3 := oov3 s; events := events s; sent := sent s |}).

(** Writing one field of [claims[id]]. *)
Definition update_claim (id : bytes32) (f : Claim -> Claim) : Tx unit :=
  c <- read_claim id ;; write_claim id (f c).

Definition emit (e : Event) : Tx unit :=
  modify (fun s =>
    {| claims := claims s; balance := balance s; oov3 := oov3 s;
       events := events s ++ [e]; sent := sent s |}).

(** [payable(to).transfer(amount)]: reverts when the balance does not
    cover the amount or the recipient does not take it.  The registry
    never calls itself, so the recipient is another account and the
    amount leaves the registry's balance. *)
Definition transfer (ctx : Env) (to : address) (amount : Z) : Tx unit :=
  fun s =>
    if (amount <=? balance s) && accepts_ether ctx to then
      Success (tt, {| claims := claims s; balance := balance s - amount;
                      oov3 := oov3 s; events := events s;
                      sent := sent s ++ [(to, amount)] |})
    else Reverted EmptyString.

(** A call into the oracle that may change the oracle's state. *)
Definition call_oov3 {A} (f : O -> Outcome (A * O)) : Tx A :=
  fun s =>
    match f (oov3 s) with
    | Success (a, o') =>
        Success (a, {| claims := claims s; balance := balance s;
                       oov3 := o'; events := events s; sent := sent s |})
    | Reverted r => Reverted r
    end.

(** A read-only call into the oracle. *)
Definition view_oov3 {A} (f : O -> Outcome A) : Tx A :=
  fun s =>
    match f (oov3 s) with
    | Success a => Success (a, s)
    | Reverted r => Reverted r
    end.

(** [function submitClaim(string twitterHandle, string tweetText)]. *)
Definition submitClaim (ctx : Env) (handle text : string) : Tx bytes32 :=
  let asserted := packedClaim handle text (block_timestamp ctx) in
  id <- call_oov3 (IOptimisticOracleV3.assertTruthWithDefaults
                     (this ctx) (block_timestamp ctx) asserted (this ctx)) ;;
  write_claim id
    {| assertedClaim := asserted; claimer := msg_sender ctx;
       twitterHandle := handle; tweetText := text; assertionId := id;
       isResolved := false; isRewarded := false |} ;;
  emit (ClaimSubmitted id (msg_sender ctx) handle text) ;;
  ret id.

(** [function settleAndGetAssertionResult(bytes32 assertionId)]. *)
Definition settleAndGetAssertionResult (ctx : Env) (id : bytes32)
  : Tx bool :=
  c <- read_claim id ;;
  require (negb (claimer c =? address_zero)) "Claim does not exist" ;;
  result <- call_oov3 (IOptimisticOracleV3.settleAndGetAssertionResult
                         (this ctx) (block_timestamp ctx) id) ;;
  update_claim id (set_isResolved true) ;;
  emit (ClaimResolved id result) ;;
  c <- read_claim id ;;
  (if result && negb (isRewarded c) then
     bal <- gets balance ;;
     require (REWARD_AMOUNT <=? bal) "Insufficient contract balance" ;;
     update_claim id (set_isRewarded true) ;;
     c <- read_claim id ;;
     transfer ctx (claimer c) REWARD_AMOUNT ;;
     c <- read_claim id ;;
     emit (RewardPaid id (claimer c) REWARD_AMOUNT)
   else ret tt) ;;
  ret result.

(** [function getAssertionResult(bytes32 assertionId)]. *)
Definition getAssertionResult (id : bytes32) : Tx bool :=
  view_oov3 (IOptimisticOracleV3.getAssertionResult id).

(** [function getAssertion(bytes32 assertionId)]. *)
Definition getAssertion (id : bytes32) : Tx IOptimisticOracleV3.Assertion :=
  view_oov3 (IOptimisticOracleV3.getAssertion id).

(** [function getClaimDetails(bytes32 assertionId)]. *)
Definition getClaimDetails (id : bytes32)
  : Tx (address * string * string * bool * bool) :=
  claim <- read_claim id ;;
  ret (claimer claim, twitterHandle claim, tweetText claim,
       isResolved claim, isRewarded claim).

(** [function isClaimVerified(bytes32 assertionId)]. *)
Definition isClaimVerified (id : bytes32) : Tx bool :=
  c <- read_claim id ;;
  if isResolved c then c' <- read_claim id ;; ret (isRewarded c')
  else ret false.

(** [function canBeSettled(bytes32 assertionId)]. *)
Definition canBeSettled (ctx : Env) (id : bytes32) : Tx bool :=
  c <- read_claim id ;;
  if claimer c =? address_zero then ret false
  else
    c <- read_claim id ;;
    if isResolved c then ret false
    else
      assertion <- view_oov3 (IOptimisticOracleV3.getAssertion id) ;;
      ret (negb (IOptimisticOracleV3.settled assertion) &&
           (IOptimisticOracleV3.expirationTime assertion
              <=? block_timestamp ctx)).

(** [receive() external payable {}]: the value sent is added to the
    registry's balance. *)
Definition receive (value : Z) : Tx unit :=
  modify (fun s =>
    {| claims := claims s; balance := balance s + value; oov3 := oov3 s;
       events := events s; sent := sent s |}).

End Registry.

(** ** Sequences of calls *)

(** The entry points of the registry. *)
Inductive Call : Type :=
| Call_submitClaim (handle text : string)
| Call_settleAndGetAssertionResult (id : bytes32)
| Call_getAssertionResult (id : bytes32)
| Call_getAssertion (id : bytes32)
| Call_getClaimDetails (id : bytes32)
| Call_isClaimVerified (id : bytes32)
| Call_canBeSettled (id : bytes32)
| Call_receive (value : Z).

(** What happens on the chain between two observations of the registry:
    a call to one of its entry points, or the oracle's state changing
    because of other parties (disputes, settlements, time passing). *)
Inductive Step (O : Type) : Type :=
| Invoke (ctx : Env) (c : Call)
| OracleMoves (o' : O).
Arguments Invoke {O} ctx c.
Arguments OracleMoves {O} o'.

Section Traces.

Context {O : Type} `{!IOptimisticOracleV3.Oracle O}.

Implicit Types (s : State O) (ctx : Env) (id : bytes32).

(** The state after a settlement that does not pay. *)
Definition resolved_state s id (result : bool) (o' : O) : State O :=
  {| claims := <[id := set_isResolved true (claim_at s id)]> (claims s);
     balance := balance s; oov3 := o';
     events := events s ++ [ClaimResolved id result]; sent := sent s |}.

(** The state after a settlement that pays the reward. *)
Definition rewarded_state s id (o' : O) : State O :=
  {| claims :=
       <[id := set_isRewarded true (set_isResolved true (claim_at s id))]>
         (claims s);
     balance := balance s - REWARD_AMOUNT; oov3 := o';
     events := events s ++
               [ClaimResolved id true;
                RewardPaid id (claimer (claim_at s id)) REWARD_AMOUNT];
     sent := sent s ++ [(claimer (claim_at s id), REWARD_AMOUNT)] |}.

(** The oracle's answer to the settlement of [id] in state [s]. *)
Definition oracle_settles ctx id s : Outcome (bool * O) :=
  IOptimisticOracleV3.settleAndGetAssertionResult
    (this ctx) (block_timestamp ctx) id (oov3 s).

(** The oracle's answer to the assertion [submitClaim] makes. *)
Definition oracle_asserts ctx (handle text : string) s
  : Outcome (bytes32 * O) :=
  IOptimisticOracleV3.assertTruthWithDefaults
    (this ctx) (block_timestamp ctx)
    (packedClaim handle text (block_timestamp ctx)) (this ctx) (oov3 s).

(** The record [submitClaim] writes. *)
Definition submitted_claim ctx (handle text : string) id : Claim :=
  {| assertedClaim := packedClaim handle text (block_timestamp ctx);
     claimer := msg_sender ctx; twitterHandle := handle;
     tweetText := text; assertionId := id;
     isResolved := false; isRewarded := false |}.

(** The state after a submission to which the oracle answered [id]. *)
Definition submitted_state ctx (handle text : string) s id (o' : O)
  : State O :=
  {| claims := <[id := submitted_claim ctx handle text id]> (claims s);
     balance := balance s; oov3 := o';
     events := events s ++ [ClaimSubmitted id (msg_sender ctx) handle text];
     sent := sent s |}.

(** The settlement of [id] in state [s] returns true, marks the claim
    rewarded, moves exactly the reward from the registry to the stored
    claimer and logs [RewardPaid] with that amount and claimer. *)
Definition reward_paid ctx id s : Prop :=
  exists s',
    transact (settleAndGetAssertionResult ctx id) s = (s', Success true) /\
    isRewarded (claim_at s' id) = true /\
    balance s' = balance s - REWARD_AMOUNT /\
    sent s' = (sent s ++ [(claimer (claim_at s id), REWARD_AMOUNT)])%list /\
    events s' = (events s ++
                 [ClaimResolved id true;
                  RewardPaid id (claimer (claim_at s id)) REWARD_AMOUNT])%list.

(** The state a transaction leaves behind. *)
Definition after {A} (tx : Tx (State O) A) (s : State O) : State O :=
  fst (transact tx s).

Definition perform (ctx : Env) (c : Call) (s : State O) : State O :=
  match c with
  | Call_submitClaim handle text => after (submitClaim ctx handle text) s
  | Call_settleAndGetAssertionResult id =>
      after (settleAndGetAssertionResult ctx id) s
  | Call_getAssertionResult id => after (getAssertionResult id) s
  | Call_getAssertion id => after (getAssertion id) s
  | Call_getClaimDetails id => after (getClaimDetails id) s
  | Call_isClaimVerified id => after (isClaimVerified id) s
  | Call_canBeSettled id => after (canBeSettled ctx id) s
  | Call_receive value => after (receive value) s
  end.

Definition step (st : Step O) (s : State O) : State O :=
  match st with
  | Invoke ctx c => perform ctx c s
  | OracleMoves o' =>
      {| claims := claims s; balance := balance s; oov3 := o';
         events := events s; sent := sent s |}
  end.

Definition run (steps : list (Step O)) (s : State O) : State O :=
  fold_left (fun acc st => step st acc) steps s.

(** What a step does to the chain state: it leaves the mapping and the
    log alone (a read, a deposit, a reverted call, the oracle moving),
    stores a submitted claim, resolves a claim, or resolves and rewards
    one. *)
Inductive transition s : Step O -> State O -> Prop :=
| transition_quiet st s' :
    claims s' = claims s -> events s' = events s ->
    sent s' = sent s ->
    transition s st s'
| transition_submitted ctx handle text id o' :
    oracle_asserts ctx handle text s = Success (id, o') ->
    transition s (Invoke ctx (Call_submitClaim handle text))
               (submitted_state ctx handle text s id o')
| transition_resolved ctx id result o' :
    claimer (claim_at s id) <> address_zero ->
    result && negb (isRewarded (claim_at s id)) = false ->
    transition s (Invoke ctx (Call_settleAndGetAssertionResult id))
               (resolved_state s id result o')
| transition_rewarded ctx id o' :
    claimer (claim_at s id) <> address_zero ->
    isRewarded (claim_at s id) = false ->
    REWARD_AMOUNT <= balance s ->
    transition s (Invoke ctx (Call_settleAndGetAssertionResult id))
               (rewarded_state s id o').

(** The caller of a transaction is an account that signed it or a
    contract that made the call: never [address(0)]. *)
Definition sender_is_account (st : Step O) : Prop :=
  match st with
  | Invoke ctx _ => msg_sender ctx <> address_zero
  | OracleMoves _ => True
  end.

(** A step stores a claim under [id] when it is a [submitClaim] to which
    the oracle hands out [id] as the identifier. *)
Definition stores_under (id : bytes32) (st : Step O) (s : State O) : Prop :=
  match st with
  | Invoke ctx (Call_submitClaim handle text) =>
      exists s', submitClaim ctx handle text s = Success (id, s')
  | _ => False
  end.

(** No step of the sequence stores a claim under [id]. *)
Fixpoint never_stores_under (id : bytes32) (steps : list (Step O))
  (s : State O) : Prop :=
  match steps with
  | [] => True
  | st :: rest =>
      ~ stores_under id st s /\ never_stores_under id rest (step st s)
  end.

End Traces.

(** The [RewardPaid] events for [id] in a log. *)
Definition is_RewardPaid (id : bytes32) (e : Event) : bool :=
  match e with
  | RewardPaid id' _ _ => id' =? id
  | _ => false
  end.

Definition rewards_paid (id : bytes32) (log : list Event) : nat :=
  length (List.filter (is_RewardPaid id) log).

(** Whether a byte string begins with the byte 0. *)
Definition starts_with_nul (x : string) : bool :=
  match x with
  | String a _ => if decide (a = Ascii.zero) then true else false
  | EmptyString => false
  end.

(** The state of a freshly deployed registry. *)
Definition deployed {O : Type} (o : O) : State O :=
  {| claims := ∅; balance := 0; oov3 := o; events := []; sent := [] |}.

(** The invariant of the [claims] mapping at one key: a record is stored
    exactly when the claimer read there is not [address(0)], and a
    rewarded claim is a resolved one. *)
Definition claim_invariant {O : Type} (s : State O) (id : bytes32) : Prop :=
  (is_Some (claims s !! id) <->
     claimer (default zeroClaim (claims s !! id)) <> address_zero) /\
  (isRewarded (default zeroClaim (claims s !! id)) = true ->
     isResolved (default zeroClaim (claims s !! id)) = true).

Definition registry_invariant {O : Type} (s : State O) : Prop :=
  forall id : bytes32, claim_invariant s id.

(** The sentence of the assertion as the specification words it, with the
    submission time written out in decimal digits: the text the oracle's
    disputers are meant to read. *)
Definition assertion_sentence (handle text : string) (submission_time : Z)
  : string :=
  "Twitter user @" +:+ handle +:+
  " posted a tweet with the exact text: '" +:+ text +:+
  "' as of timestamp " +:+ pretty submission_time.

(** ** A scripted oracle

    A stand-in for the oracle with a fixed script: it hands out [next_id]
    for every assertion, refuses to settle before [expiry], and reports
    [verdict] as the result. *)
Module Scripted.

Record t : Type := {
  next_id : bytes32;
  verdict : bool;
  expiry : Z;
  was_settled : bool
}.

Definition record (o : t) : IOptimisticOracleV3.Assertion :=
  {| IOptimisticOracleV3.validated := false;
     IOptimisticOracleV3.resolved := was_settled o;
     IOptimisticOracleV3.settlementResolution := was_settled o && verdict o;
     IOptimisticOracleV3.asserter := 0;
     IOptimisticOracleV3.challenger := 0;
     IOptimisticOracleV3.settlementTimestamp := 0;
     IOptimisticOracleV3.expirationTime := expiry o;
     IOptimisticOracleV3.settled := was_settled o |}.

#[global] Instance oracle : IOptimisticOracleV3.Oracle t := {|
  IOptimisticOracleV3.assertTruthWithDefaults _ _ _ _ o :=
    Success (next_id o, o);
  IOptimisticOracleV3.settleAndGetAssertionResult _ now _ o :=
    if now <? expiry o then Reverted "Assertion not expired"
    else Success (verdict o,
                  {| next_id := next_id o; verdict := verdict o;
                     expiry := expiry o; was_settled := true |});
  IOptimisticOracleV3.getAssertionResult _ o := Success (verdict o);
  IOptimisticOracleV3.getAssertion _ o := Success (record o)
|}.

End Scripted.

(** ** The client's status check *)

Module Client.

(** An awaited promise: it is fulfilled with a value or rejected with an
    error carrying a message. *)
Inductive Promise (A : Type) : Type :=
| Fulfilled (a : A)
| Rejected (message : string).
Arguments Fulfilled {A} a.
Arguments Rejected {A} message.

(** What [contract.getClaimDetails] decodes to. *)
Record Details : Type := {
  d_claimer : string;
  d_twitterHandle : string;
  d_tweetText : string;
  d_isResolved : bool;
  d_isRewarded : bool
}.

(** What [contract.getAssertion] decodes to under the client's ABI; a
    field the decoder leaves out reads as [undefined] ([None]). *)
Record AssertionTuple : Type := {
  a_validated : bool;
  a_resolved : bool;
  a_settlementResolution : bool;
  a_asserter : string;
  a_challenger : string;
  a_settlementTimestamp : option Z
}.

(** The browser and the chain as the status check meets them:
    [window.ethereum] (without it the provider's constructor throws
    [provider_error]), the three contract reads, and the locale's
    rendering of a date given in milliseconds. *)
Record World : Type := {
  window_ethereum : bool;
  provider_error : string;
  getClaimDetails : string -> Promise Details;
  getAssertion : string -> Promise AssertionTuple;
  canBeSettled : string -> Promise bool;
  toLocaleString : Z -> string
}.

(** The object given to [setClaimStatus]. *)
Record ClaimStatus : Type := {
  cs_claimer : string;
  cs_twitterHandle : string;
  cs_tweetText : string;
  cs_resolved : bool;
  cs_rewarded : bool
}.

(** The object given to [setAssertionDetails]. *)
Record AssertionDetails : Type := {
  ad_validated : bool;
  ad_resolved : bool;
  ad_settlementResolution : bool;
  ad_asserter : string;
  ad_challenger : string;
  ad_settlementTimestamp : string
}.

(** The state variables of [App] the status check reads or sets. *)
Record App : Type := {
  loading : bool;
  error : string;
  assertionId : string;
  claimStatus : option ClaimStatus;
  assertionDetails : option AssertionDetails;
  canSettle : bool
}.

Definition setLoading (b : bool) (st : App) : App :=
  {| loading := b; error := error st; assertionId := assertionId st;
     claimStatus := claimStatus st; assertionDetails := assertionDetails st;
     canSettle := canSettle st |}.

Definition setError (e : string) (st : App) : App :=
  {| loading := loading st; error := e; assertionId := assertionId st;
     claimStatus := claimStatus st; assertionDetails := assertionDetails st;
     canSettle := canSettle st |}.

Definition setClaimStatus (c : ClaimStatus) (st : App) : App :=
  {| loading := loading st; error := error st; assertionId := assertionId st;
     claimStatus := Some c; assertionDetails := assertionDetails st;
     canSettle := canSettle st |}.

Definition setAssertionDetails (a : AssertionDetails) (st : App) : App :=
  {| loading := loading st; error := error st; assertionId := assertionId st;
     claimStatus := claimStatus st; assertionDetails := Some a;
     canSettle := canSettle st |}.

Definition setCanSettle (b : bool) (st : App) : App :=
  {| loading := loading st; error := error st; assertionId := assertionId st;
     claimStatus := claimStatus st; assertionDetails := assertionDetails st;
     canSettle := b |}.

(** A string is truthy when it is not empty. *)
Definition truthy (x : string) : bool :=
  match x with EmptyString => false | String _ _ => true end.

(** [idToCheck || assertionId], [idToCheck] defaulting to [null]. *)
Definition idToUse (idToCheck : option string) (st : App) : string :=
  match idToCheck with
  | Some id => if truthy id then id else assertionId st
  | None => assertionId st
  end.

(** The inner [try] of the status check: the oracle's record, then the
    settleability flag; either read failing sets [canSettle] to true. *)
Definition readAssertion (w : World) (id : string) (st : App) : App :=
  match getAssertion w id with
  | Fulfilled assertion =>
      let st := setAssertionDetails
        {| ad_validated := a_validated assertion;
           ad_resolved := a_resolved assertion;
           ad_settlementResolution := a_settlementResolution assertion;
           ad_asserter := a_asserter assertion;
           ad_challenger := a_challenger assertion;
           ad_settlementTimestamp :=
             match a_settlementTimestamp assertion with
             | Some t => toLocaleString w (t * 1000)
             | None => "N/A"
             end |} st in
      match canBeSettled w id with
      | Fulfilled settleable => setCanSettle settleable st
      | Rejected _ => setCanSettle true st
      end
  | Rejected _ => setCanSettle true st
  end.

(** [async function checkClaimStatus(idToCheck = null)]. *)
Definition checkClaimStatus (w : World) (idToCheck : option string)
  (st : App) : App :=
  let id := idToUse idToCheck st in
  if negb (truthy id) then setError "Please enter an assertion ID" st
  else
    let st := setError EmptyString (setLoading true st) in
    let st :=
      if window_ethereum w then
        match getClaimDetails w id with
        | Fulfilled details =>
            let st := setClaimStatus
              {| cs_claimer := d_claimer details;
                 cs_twitterHandle := d_twitterHandle details;
                 cs_tweetText := d_tweetText details;
                 cs_resolved := d_isResolved details;
                 cs_rewarded := d_isRewarded details |} st in
            readAssertion w id st
        | Rejected message =>
            setError ("Error checking claim: " +:+ message) st
        end
      else setError ("Error checking claim: " +:+ provider_error w) st in
    setLoading false st.

(** A browser in which the claim is known to the registry while the
    read of the oracle's record fails. *)
Definition pending_details : Details :=
  {| d_claimer := "0xA11CE"; d_twitterHandle := "drextron";
     d_tweetText := "Life is short, test in prod";
     d_isResolved := false; d_isRewarded := false |}.

Definition oracle_unreachable : World :=
  {| window_ethereum := true;
     provider_error := "unsupported provider";
     getClaimDetails := fun _ => Fulfilled pending_details;
     getAssertion := fun _ => Rejected "call revert exception";
     canBeSettled := fun _ => Fulfilled false;
     toLocaleString := fun _ => "1/1/1970" |}.

Definition idle : App :=
  {| loading := false; error := EmptyString; assertionId := "0x07";
     claimStatus := None; assertionDetails := None; canSettle := false |}.

End Client.

(** ** The other actions of the client *)

Module Pages.
Import Client.

(** A property of a JavaScript object that may be [undefined]; only a
    string that is there and not empty is truthy. *)
Definition truthy_field (x : option string) : bool :=
  match x with
  | Some v => truthy v
  | None => false
  end.

(** A value of that kind appended to a string. *)
Definition shown (x : option string) : string := default "undefined" x.

(** An error as the handlers read it: [err.message], [err.reason],
    [err.error.message] and [err.data.message]. *)
Record JsError : Type := {
  message : option string;
  reason : option string;
  error_message : option string;
  data_message : option string
}.

(** An awaited call of the wallet or the provider. *)
Inductive Awaited (A : Type) : Type :=
| Resolved (a : A)
| Thrown (err : JsError).
Arguments Resolved {A} a.
Arguments Thrown {A} err.

(** A log entry of a receipt, and what [contract.interface.parseLog]
    makes of one. *)
Record Log : Type := {
  topics : list string;
  data : string
}.

Record ParsedLog : Type := {
  name : string;
  args_assertionId : string
}.

(** A transaction the client hands to the wallet. *)
Inductive Request : Type :=
| Send_submitClaim (handle text : string)
| Send_settleAndGetAssertionResult (id : string).

(** The object given to [setResult]. *)
Record Result : Type := {
  r_status : option string;
  r_message : string;
  r_txHash : option string;
  r_assertionId : option string
}.

(** The browser as the actions meet it: the reads of the status check,
    the wallet's answers, the network, the registry's balance, the
    sending and mining of the two transactions, the lookup of a receipt,
    the decoding of a log ([None] when [parseLog] throws) and the topic
    hash of the oracle's [AssertionMade] event. *)
Record Browser : Type := {
  world : World;
  provider_reason : option string;
  request_accounts : Awaited unit;
  getNetwork : Awaited Z;
  getBalance : Awaited Z;
  formatEther : Z -> string;
  send_submitClaim : string -> string -> Awaited string;
  send_settle : string -> Awaited string;
  wait : string -> Awaited (list Log);
  getTransactionReceipt : string -> Awaited (option (list Log));
  parseLog : Log -> option ParsedLog;
  AssertionMade_topic : string
}.

(** The state variables of [App]: those of the status check and the
    rest. *)
Record Page : Type := {
  app : App;
  twitterHandle : string;
  tweetText : string;
  result : option Result;
  walletConnected : bool;
  contractBalance : option string;
  txHash : string
}.

Definition on_app (f : App -> App) (p : Page) : Page :=
  {| app := f (app p); twitterHandle := twitterHandle p;
     tweetText := tweetText p; result := result p;
     walletConnected := walletConnected p;
     contractBalance := contractBalance p; txHash := txHash p |}.

Definition setAssertionId (id : string) (st : App) : App :=
  {| loading := loading st; error := error st; assertionId := id;
     claimStatus := claimStatus st; assertionDetails := assertionDetails st;
     canSettle := canSettle st |}.

Definition setResult (r : option Result) (p : Page) : Page :=
  {| app := app p; twitterHandle := twitterHandle p;
     tweetText := tweetText p; result := r;
     walletConnected := walletConnected p;
     contractBalance := contractBalance p; txHash := txHash p |}.

Definition setWalletConnected (b : bool) (p : Page) : Page :=
  {| app := app p; twitterHandle := twitterHandle p;
     tweetText := tweetText p; result := result p;
     walletConnected := b;
     contractBalance := contractBalance p; txHash := txHash p |}.

Definition setContractBalance (x : string) (p : Page) : Page :=
  {| app := app p; twitterHandle := twitterHandle p;
     tweetText := tweetText p; result := result p;
     walletConnected := walletConnected p;
     contractBalance := Some x; txHash := txHash p |}.

Definition setTxHash (h : string) (p : Page) : Page :=
  {| app := app p; twitterHandle := twitterHandle p;
     tweetText := tweetText p; result := result p;
     walletConnected := walletConnected p;
     contractBalance := contractBalance p; txHash := h |}.

(** The error [new ethers.providers.Web3Provider(undefined)] throws. *)
Definition provider_threw (b : Browser) : JsError :=
  {| message := Some (provider_error (world b));
     reason := provider_reason b;
     error_message := None; data_message := None |}.

(** The chain id of Sepolia. *)
Definition SEPOLIA : Z := 11155111.

(** [async function connectWallet()]: the page and the boolean returned. *)
Definition connectWallet (b : Browser) (p : Page) : Page * bool :=
  if window_ethereum (world b) then
    match request_accounts b with
    | Thrown err =>
        (on_app (setError ("Failed to connect wallet: " +:+
                           shown (message err))) p, false)
    | Resolved _ =>
        match getNetwork b with
        | Thrown err =>
            (on_app (setError ("Failed to connect wallet: " +:+
                               shown (message err))) p, false)
        | Resolved chainId =>
            if negb (chainId =? SEPOLIA) then
              (on_app (setError "Please connect to Sepolia testnet") p,
               false)
            else
              let p := on_app (setError EmptyString)
                              (setWalletConnected true p) in
              match getBalance b with
              | Thrown err =>
                  (on_app (setError ("Failed to connect wallet: " +:+
                                     shown (message err))) p, false)
              | Resolved balance =>
                  (setContractBalance (formatEther b balance) p, true)
              end
        end
    end
  else
    (on_app (setError "MetaMask not detected. Please install MetaMask.") p,
     false).

(** The first loop of [findAssertionIdFromReceipt]: the first log that
    parses as the registry's [ClaimSubmitted]. *)
Fixpoint scan_ClaimSubmitted (b : Browser) (logs : list Log)
  : option string :=
  match logs with
  | [] => None
  | log :: rest =>
      match parseLog b log with
      | Some parsedLog =>
          if String.eqb (name parsedLog) "ClaimSubmitted"
          then Some (args_assertionId parsedLog)
          else scan_ClaimSubmitted b rest
      | None => scan_ClaimSubmitted b rest
      end
  end.

(** Whether [log.topics[0]] is the [AssertionMade] topic. *)
Definition is_AssertionMade (b : Browser) (log : Log) : bool :=
  match nth_error (topics log) 0 with
  | Some t => String.eqb t (AssertionMade_topic b)
  | None => false
  end.

(** The second loop: [topics[1]] of the first [AssertionMade] log, which
    is [undefined] ([None]) when that log has one topic only. *)
Fixpoint scan_AssertionMade (b : Browser) (logs : list Log)
  : option (option string) :=
  match logs with
  | [] => None
  | log :: rest =>
      if is_AssertionMade b log then Some (nth_error (topics log) 1)
      else scan_AssertionMade b rest
  end.

(** [async function findAssertionIdFromReceipt(receipt, contract)];
    [None] stands for [null] and [undefined]. *)
Definition findAssertionIdFromReceipt (b : Browser) (logs : list Log)
  : option string :=
  match scan_ClaimSubmitted b logs with
  | Some id => Some id
  | None =>
      match scan_AssertionMade b logs with
      | Some topic => topic
      | None => None
      end
  end.

(** [twitterHandle.startsWith('@') ? twitterHandle.substring(1)
    : twitterHandle]. *)
Definition cleanHandle (handle : string) : string :=
  if String.prefix "@" handle
  then String.substring 1 (String.length handle - 1) handle
  else handle.

(** The message the handler of [submitClaim] picks from an error. *)
Definition errorMessage (err : JsError) : string :=
  if truthy_field (reason err) then shown (reason err)
  else if truthy_field (error_message err) then shown (error_message err)
  else if truthy_field (data_message err) then shown (data_message err)
  else if truthy_field (message err) then shown (message err)
  else "transaction failed".

(** The double quote character, for the messages that hold one. *)
Definition dquote : string := String (Ascii.ascii_of_nat 34) EmptyString.

Definition claim_processed (hash id : string) : Result :=
  {| r_status := Some "Claim processed";
     r_message := "Your claim has been submitted. The verification will be completed once the UMA challenge period ends (typically 2 minutes on Sepolia for testing).";
     r_txHash := Some hash; r_assertionId := Some id |}.

Definition claim_processed_without_id (hash : string) : Result :=
  {| r_status := Some "Claim processed";
     r_message := "Your claim has been submitted, but we could not automatically extract the assertion ID. Use the " +:+ dquote +:+ "Find Assertion ID" +:+ dquote +:+ " button below or check transaction details on Etherscan.";
     r_txHash := Some hash; r_assertionId := None |}.

Definition claim_submitted (hash : string) : Result :=
  {| r_status := Some "Claim submitted";
     r_message := "Transaction submitted. Waiting for confirmation...";
     r_txHash := Some hash; r_assertionId := None |}.

(** The [try] block of [submitClaim] after [setLoading(true)]: the page
    as the block leaves it, the error it threw if any, and the
    transactions sent. *)
Definition submitClaim_try (b : Browser) (p : Page)
  : Page * option JsError * list Request :=
  if window_ethereum (world b) then
    let handle := cleanHandle (twitterHandle p) in
    let sent := [Send_submitClaim handle (tweetText p)] in
    match send_submitClaim b handle (tweetText p) with
    | Thrown err => (p, Some err, sent)
    | Resolved hash =>
        let p := setResult (Some (claim_submitted hash)) (setTxHash hash p) in
        match wait b hash with
        | Thrown err => (p, Some err, sent)
        | Resolved logs =>
            match findAssertionIdFromReceipt b logs with
            | Some id =>
                if truthy id then
                  (setResult (Some (claim_processed hash id))
                     (on_app (setAssertionId id) p), None, sent)
                else
                  (setResult (Some (claim_processed_without_id hash)) p,
                   None, sent)
            | None =>
                (setResult (Some (claim_processed_without_id hash)) p,
                 None, sent)
            end
        end
    end
  else (p, Some (provider_threw b), []).

(** [submitClaim] of the client from [try] to [finally]. *)
Definition submitClaim_body (b : Browser) (p : Page) : Page * list Request :=
  let p := on_app (setLoading true) p in
  match submitClaim_try b p with
  | (p, None, sent) => (on_app (setLoading false) p, sent)
  | (p, Some err, sent) =>
      (on_app (setLoading false)
         (on_app (setError ("Error submitting claim: " +:+
                            errorMessage err)) p),
       sent)
  end.

(** [async function submitClaim()] of the client: the page it leaves and
    the transactions it sent. *)
Definition submitClaim (b : Browser) (p : Page) : Page * list Request :=
  let p := setResult None (on_app (setError EmptyString) p) in
  if negb (truthy (twitterHandle p)) || negb (truthy (tweetText p)) then
    (on_app (setError "Please enter both Twitter handle and tweet text") p,
     [])
  else if negb (walletConnected p) then
    let (p, connected) := connectWallet b p in
    if negb connected then (p, []) else submitClaim_body b p
  else submitClaim_body b p.

(** [hay.includes(needle)]. *)
Fixpoint includes (needle hay : string) : bool :=
  String.prefix needle hay ||
  match hay with
  | EmptyString => false
  | String _ rest => includes needle rest
  end.

(** [err.message && err.message.includes(needle)]. *)
Definition message_includes (needle : string) (err : JsError) : bool :=
  truthy_field (message err) && includes needle (shown (message err)).

Definition not_yet_message : string :=
  "This claim cannot be settled yet. The UMA challenge period may not have ended. Please wait a few more minutes and try again.".

Definition already_resolved_message : string :=
  "This claim has already been resolved. Please refresh the status to see the latest information.".

Definition settlement_initiated (hash : string) : Result :=
  {| r_status := Some "Claim settlement initiated";
     r_message := "Please wait for the transaction to be confirmed...";
     r_txHash := Some hash; r_assertionId := None |}.

Definition claim_settled (hash : string) : Result :=
  {| r_status := Some "Claim settled";
     r_message := "The claim has been settled. Check the claim status for details.";
     r_txHash := Some hash; r_assertionId := None |}.

(** The [try] block of [settleClaim] after [setLoading(true)] and
    [setError('')]. *)
Definition settleClaim_try (b : Browser) (p : Page)
  : Page * option JsError * list Request :=
  if window_ethereum (world b) then
    let sent := [Send_settleAndGetAssertionResult (assertionId (app p))] in
    match send_settle b (assertionId (app p)) with
    | Thrown err => (p, Some err, sent)
    | Resolved hash =>
        let p := setResult (Some (settlement_initiated hash)) p in
        match wait b hash with
        | Thrown err => (p, Some err, sent)
        | Resolved _ =>
            let p := on_app (checkClaimStatus (world b) None) p in
            (setResult (Some (claim_settled hash)) p, None, sent)
        end
    end
  else (p, Some (provider_threw b), []).

(** The [catch] block of [settleClaim]. *)
Definition settleClaim_catch (b : Browser) (err : JsError) (p : Page)
  : Page :=
  if message_includes "challenge period" err then
    on_app (setError not_yet_message) p
  else if message_includes "already resolved" err then
    on_app (checkClaimStatus (world b) None)
           (on_app (setError already_resolved_message) p)
  else
    on_app (setError ("Error settling claim: " +:+ shown (message err))) p.

(** [settleClaim] from [try] to [finally]. *)
Definition settleClaim_body (b : Browser) (p : Page) : Page * list Request :=
  let p := on_app (setError EmptyString) (on_app (setLoading true) p) in
  match settleClaim_try b p with
  | (p, None, sent) => (on_app (setLoading false) p, sent)
  | (p, Some err, sent) =>
      (on_app (setLoading false) (settleClaim_catch b err p), sent)
  end.

(** [async function settleClaim()]: the page it leaves and the
    transactions it sent. *)
Definition settleClaim (b : Browser) (p : Page) : Page * list Request :=
  if negb (truthy (assertionId (app p))) then
    (on_app (setError "Please enter an assertion ID") p, [])
  else if negb (walletConnected p) then
    let (p, connected) := connectWallet b p in
    if negb connected then (p, []) else settleClaim_body b p
  else settleClaim_body b p.

(** The object [{...result, message, assertionId}]. *)
Definition found_result (old : option Result) (id : string) : Result :=
  {| r_status := match old with Some r => r_status r | None => None end;
     r_message := "Found assertion ID: " +:+ id;
     r_txHash := match old with Some r => r_txHash r | None => None end;
     r_assertionId := Some id |}.

(** The [try] block of [findAssertionIdFromTxHash] after
    [setLoading(true)] and [setError('')]. *)
Definition findAssertionIdFromTxHash_try (b : Browser) (p : Page)
  : Page * option JsError :=
  if window_ethereum (world b) then
    match getTransactionReceipt b (txHash p) with
    | Thrown err => (p, Some err)
    | Resolved None =>
        (on_app (setError "Transaction not found or not confirmed yet") p,
         None)
    | Resolved (Some logs) =>
        match findAssertionIdFromReceipt b logs with
        | Some id =>
            if truthy id then
              let p' := setResult (Some (found_result (result p) id))
                                  (on_app (setAssertionId id) p) in
              (on_app (checkClaimStatus (world b) (Some id)) p', None)
            else
              (on_app (setError
                         "Could not find assertion ID in transaction logs") p,
               None)
        | None =>
            (on_app (setError
                       "Could not find assertion ID in transaction logs") p,
             None)
        end
    end
  else (p, Some (provider_threw b)).

(** [async function findAssertionIdFromTxHash()]. *)
Definition findAssertionIdFromTxHash (b : Browser) (p : Page) : Page :=
  if negb (truthy (txHash p)) then
    on_app (setError "Please enter a transaction hash") p
  else
    let p := on_app (setError EmptyString) (on_app (setLoading true) p) in
    match findAssertionIdFromTxHash_try b p with
    | (p, None) => on_app (setLoading false) p
    | (p, Some err) =>
        on_app (setLoading false)
          (on_app (setError ("Error finding assertion ID: " +:+
                             shown (message err))) p)
    end.

(** The identifier a log gives when it parses as [ClaimSubmitted]. *)
Definition claim_submitted_id (b : Browser) (log : Log) : option string :=
  match parseLog b log with
  | Some parsedLog =>
      if String.eqb (name parsedLog) "ClaimSubmitted"
      then Some (args_assertionId parsedLog)
      else None
  | None => None
  end.

(** A browser on Sepolia with the wallet there, for the examples: the
    registry knows the claim, the oracle's record cannot be read, a log
    whose data is [claim] parses as [ClaimSubmitted] of the identifier
    [0x07]; the answers to the two transactions and to the mining are
    given. *)
Definition example_browser (submitted settled : Awaited string)
  (mined : Awaited (list Log)) : Browser :=
  {| world := oracle_unreachable;
     provider_reason := Some "unsupported provider";
     request_accounts := Resolved tt;
     getNetwork := Resolved SEPOLIA;
     getBalance := Resolved 10000000000000000;
     formatEther := fun _ => "0.01";
     send_submitClaim := fun _ _ => submitted;
     send_settle := fun _ => settled;
     wait := fun _ => mined;
     getTransactionReceipt := fun _ =>
       match mined with
       | Resolved logs => Resolved (Some logs)
       | Thrown err => Thrown err
       end;
     parseLog := fun log =>
       if String.eqb (data log) "claim"
       then Some {| name := "ClaimSubmitted"; args_assertionId := "0x07" |}
       else None;
     AssertionMade_topic := "0xdb15" |}.

Definition oracle_log : Log :=
  {| topics := ["0xdb15"; "0x09"]; data := "assertion" |}.

Definition registry_log : Log :=
  {| topics := ["0x4c1a"; "0x07"; "0xA11CE"]; data := "claim" |}.

Definition thrown (text : string) : JsError :=
  {| message := Some text; reason := None;
     error_message := None; data_message := None |}.

(** A page with the form filled in and the wallet connected. *)
Definition example_page (handle text id : string) : Page :=
  {| app := {| loading := false; error := "stale"; assertionId := id;
               claimStatus := None; assertionDetails := None;
               canSettle := false |};
     twitterHandle := handle; tweetText := text; result := None;
     walletConnected := true; contractBalance := None;
     txHash := "0xfeed" |}.

(** A world in which the three reads of the status check succeed, and
    one without a wallet. *)
Definition settled_record : AssertionTuple :=
  {| a_validated := false; a_resolved := true;
     a_settlementResolution := true; a_asserter := "0x5Afe";
     a_challenger := "0x0000"; a_settlementTimestamp := Some 1700007201 |}.

Definition readable_world : World :=
  {| window_ethereum := true;
     provider_error := "unsupported provider";
     Client.getClaimDetails := fun _ => Fulfilled pending_details;
     Client.getAssertion := fun _ => Fulfilled settled_record;
     Client.canBeSettled := fun _ => Fulfilled false;
     toLocaleString := fun _ => "11/15/2023" |}.

Definition offline_world : World :=
  {| window_ethereum := false;
     provider_error := "unsupported provider";
     Client.getClaimDetails := fun _ => Rejected "network error";
     Client.getAssertion := fun _ => Rejected "network error";
     Client.canBeSettled := fun _ => Rejected "network error";
     toLocaleString := fun _ => "11/15/2023" |}.

End Pages.

(** ** Sample chain states

    The deployment the repository documents: the registry on Sepolia, a
    claim on the handle [drextron], run against the scripted oracle. *)
Module Sample.

Definition registry : address := 0x5Afe91b48A76C2633e90Ce95d10DCc30269B7585.
Definition alice : address := 0xA11CE.

Definition handle : string := "drextron".
Definition text : string := "Life is short, test in prod".

(** A call from [alice] at time [now]; [takes] says whether accounts
    take a plain transfer. *)
Definition call_at (now : Z) (takes : bool) : Env :=
  {| this := registry; msg_sender := alice; block_timestamp := now;
     accepts_ether := fun _ => takes |}.

(** An oracle that hands out identifier 7 and upholds the assertion
    once the time 1700007200 has come. *)
Definition upholding : Scripted.t :=
  {| Scripted.next_id := 7; Scripted.verdict := true;
     Scripted.expiry := 1700007200; Scripted.was_settled := false |}.

(** The same, rejecting the assertion. *)
Definition rejecting : Scripted.t :=
  {| Scripted.next_id := 7; Scripted.verdict := false;
     Scripted.expiry := 1700007200; Scripted.was_settled := false |}.

(** The registry deployed and funded with one ether. *)
Definition funded (o : Scripted.t) : State Scripted.t :=
  after (receive ether) (deployed o).

(** A claim submitted at time 1700000000, to a funded and to an unfunded
    registry. *)
Definition pending (o : Scripted.t) : State Scripted.t :=
  after (submitClaim (call_at 1700000000 true) handle text) (funded o).

Definition pending_unfunded (o : Scripted.t) : State Scripted.t :=
  after (submitClaim (call_at 1700000000 true) handle text) (deployed o).

(** The claim settled after the dispute window. *)
Definition settled (o : Scripted.t) : State Scripted.t :=
  after (settleAndGetAssertionResult (call_at 1700007201 true) 7)
        (pending o).

End Sample.

(** ** The ledger of a run *)

(** The wei a list of transfers moves. *)
Definition total_sent (l : list (address * Z)) : Z :=
  fold_right (fun p acc => snd p + acc) 0 l.

(** The transfers the [RewardPaid] events of a log announce. *)
Definition payouts (log : list Event) : list (address * Z) :=
  flat_map (fun e => match e with
                     | RewardPaid _ who amount => [(who, amount)]
                     | _ => []
                     end) log.

(** The log holds a [ClaimSubmitted] for [id] from [who]. *)
Definition submitted_by (id : bytes32) (who : address) (log : list Event)
  : Prop :=
  exists handle text, In (ClaimSubmitted id who handle text) log.

(** The log holds a [ClaimResolved] for [id]. *)
Definition resolution_logged (id : bytes32) (log : list Event) : Prop :=
  exists truthful, In (ClaimResolved id truthful) log.

(** [c'] is [c] later in its life: the same claimer, handle, text, bytes
    and identifier, and no flag taken back. *)
Definition grown (c c' : Claim) : Prop :=
  claimer c' = claimer c /\
  twitterHandle c' = twitterHandle c /\
  tweetText c' = tweetText c /\
  assertedClaim c' = assertedClaim c /\
  assertionId c' = assertionId c /\
  (isResolved c = true -> isResolved c' = true) /\
  (isRewarded c = true -> isRewarded c' = true).

(** The value of a byte string read as a big-endian number. *)
Definition be_value (x : string) : Z :=
  fold_left (fun acc a => acc * 256 + Z.of_N (Ascii.N_of_ascii a))
            (String.list_ascii_of_string x) 0.

(** The number held by the last 32 bytes of a byte string. *)
Definition timestamp_of (bytes : string) : Z :=
  be_value (String.substring (String.length bytes - 32) 32 bytes).

(** The literal between the handle and the text of a packed claim. *)
Definition posted_fragment : string :=
  " posted a tweet with the exact text: '".

Section Ledger.

Context {O : Type} `{!IOptimisticOracleV3.Oracle O}.

Implicit Types (s : State O) (ctx : Env) (id : bytes32).

(** The wei a step brings in: [msg.value] of a plain transfer to the
    registry. *)
Definition deposit (st : Step O) : Z :=
  match st with
  | Invoke _ (Call_receive value) => value
  | _ => 0
  end.

Definition deposits (steps : list (Step O)) : Z :=
  fold_right (fun st acc => deposit st + acc) 0 steps.

(** [msg.value] is an unsigned integer. *)
Definition deposits_unsigned (steps : list (Step O)) : Prop :=
  Forall (fun st => 0 <= deposit st) steps.

(** Every call of the sequence is made by an account. *)
Definition senders_are_accounts (steps : list (Step O)) : Prop :=
  Forall sender_is_account steps.

(** The state with the oracle moved. *)
Definition moved_state s (o' : O) : State O :=
  {| claims := claims s; balance := balance s; oov3 := o';
     events := events s; sent := sent s |}.

(** The state with the balance raised. *)
Definition deposited_state s (value : Z) : State O :=
  {| claims := claims s; balance := balance s + value; oov3 := oov3 s;
     events := events s; sent := sent s |}.

(** The exact effect of a step on the chain state. *)
Inductive effect s : Step O -> State O -> Prop :=
| effect_none st : deposit st = 0 -> effect s st s
| effect_moved o' : effect s (OracleMoves o') (moved_state s o')
| effect_deposit ctx value :
    effect s (Invoke ctx (Call_receive value)) (deposited_state s value)
| effect_submitted ctx handle text id o' :
    oracle_asserts ctx handle text s = Success (id, o') ->
    effect s (Invoke ctx (Call_submitClaim handle text))
           (submitted_state ctx handle text s id o')
| effect_resolved ctx id result o' :
    claimer (claim_at s id) <> address_zero ->
    oracle_settles ctx id s = Success (result, o') ->
    result && negb (isRewarded (claim_at s id)) = false ->
    effect s (Invoke ctx (Call_settleAndGetAssertionResult id))
           (resolved_state s id result o')
| effect_rewarded ctx id o' :
    claimer (claim_at s id) <> address_zero ->
    oracle_settles ctx id s = Success (true, o') ->
    isRewarded (claim_at s id) = false ->
    REWARD_AMOUNT <= balance s ->
    accepts_ether ctx (claimer (claim_at s id)) = true ->
    effect s (Invoke ctx (Call_settleAndGetAssertionResult id))
           (rewarded_state s id o').

(** The chain after the deployment script: the registry deployed and
    funded with [parseEther("0.01")]. *)
Definition deployed_and_funded (o : O) : State O :=
  after (receive (ether / 100)) (deployed o).

(** What the entries of the mapping and the log have to do with each
    other in a state reached from deployment. *)
Definition log_backs_claims s : Prop :=
  (forall id c, claims s !! id = Some c ->
     submitted_by id (claimer c) (events s)) /\
  (forall id who amount, In (RewardPaid id who amount) (events s) ->
     submitted_by id who (events s)) /\
  (forall id c, claims s !! id = Some c -> isRewarded c = true ->
     (0 < rewards_paid id (events s))%nat) /\
  (forall id c, claims s !! id = Some c -> isResolved c = true ->
     resolution_logged id (events s)).

(** The oracle's side of "one creation per assertion identifier": the
    identifier that the [submitClaim] of a step gets from the oracle is
    not yet a key of the mapping. *)
Definition fresh_identifier (st : Step O) s : Prop :=
  match st with
  | Invoke ctx (Call_submitClaim handle text) =>
      forall id s', submitClaim ctx handle text s = Success (id, s') ->
                    claims s !! id = None
  | _ => True
  end.

(** Every submission of the run gets a fresh identifier. *)
Fixpoint fresh_identifiers (steps : list (Step O)) s : Prop :=
  match steps with
  | [] => True
  | st :: rest =>
      fresh_identifier st s /\ fresh_identifiers rest (step st s)
  end.

(** What the log and the [isRewarded] flag of [id] have to do with each
    other when identifiers are fresh: no reward is logged for a key never
    written, at most one is logged, and a logged one has set the flag. *)
Definition paid_once s id : Prop :=
  (claims s !! id = None -> rewards_paid id (events s) = 0%nat) /\
  (rewards_paid id (events s) <= 1)%nat /\
  ((0 < rewards_paid id (events s))%nat ->
   isRewarded (claim_at s id) = true).

End Ledger.

(** * Properties of the registry *)

(** ** Reading the mapping back *)

Lemma claim_at_insert {O : Type} id c (m : gmap bytes32 Claim) b (o : O) ev sn :
  claim_at {| claims := <[id := c]> m; balance := b; oov3 := o;
              events := ev; sent := sn |} id = c.
Proof. unfold claim_at; cbn [claims]. by rewrite lookup_insert_eq. Qed.

Lemma claim_at_insert_ne {O : Type} id id' c (m : gmap bytes32 Claim) b
  (o : O) ev sn :
  id <> id' ->
  claim_at {| claims := <[id := c]> m; balance := b; oov3 := o;
              events := ev; sent := sn |} id' = default zeroClaim (m !! id').
Proof.
  intros Hne. unfold claim_at; cbn [claims]. by rewrite lookup_insert_ne.
Qed.

Lemma claim_at_claims {O : Type} (s : State O) b (o : O) ev sn id :
  claim_at {| claims := claims s; balance := b; oov3 := o;
              events := ev; sent := sn |} id = claim_at s id.
Proof. reflexivity. Qed.

(** Reduces the projections of the states a transaction builds. *)
Ltac tx_simpl :=
  repeat (progress (
    cbn [andb negb fst snd balance claims oov3 events sent isRewarded
         isResolved claimer set_isResolved set_isRewarded];
    rewrite ?claim_at_insert, ?claim_at_claims)).

(** Unfolds the primitives of the transaction monad. *)
Ltac tx_unfold :=
  unfold bind, read_claim, gets, require, call_oov3, view_oov3, write_claim,
    emit, modify, transfer, ret, revert.

(** ** The bytes of the asserted claim *)

Lemma be_bytes_head k z :
  exists rest,
    be_bytes (S k) z =
    String (Ascii.ascii_of_N (Z.to_N ((z / 256 ^ Z.of_nat k) mod 256))) rest.
Proof.
  revert z. induction k as [| k IH]; intros z.
  - exists EmptyString. cbn [be_bytes].
    change (256 ^ Z.of_nat 0) with 1. by rewrite Z.div_1_r.
  - destruct (IH (z / 256)) as [rest Hrest].
    change (be_bytes (S (S k)) z) with
      (be_bytes (S k) (z / 256) +:+
       String (Ascii.ascii_of_N (Z.to_N (z mod 256))) EmptyString).
    rewrite Hrest.
    rewrite Z.div_div, Nat2Z.inj_succ, Z.pow_succ_r by lia.
    by eexists.
Qed.

(** A word below [2 ^ 248] is packed with a leading byte 0. *)
Lemma encodePacked_uint256_nul x :
  0 <= x < 2 ^ 248 -> starts_with_nul (encodePacked_uint256 x) = true.
Proof.
  intros Hx. unfold encodePacked_uint256.
  destruct (be_bytes_head 31 x) as [rest ->].
  replace (256 ^ Z.of_nat 31) with (2 ^ 248) by reflexivity.
  by rewrite Z.div_small by exact Hx.
Qed.

Lemma pretty_N_char_not_nul n : pretty_N_char n <> Ascii.zero.
Proof. unfold pretty_N_char. by repeat case_match. Qed.

(** The decimal digits of a number never begin with the byte 0. *)
Lemma pretty_N_go_not_nul (n : N) (acc : string) :
  starts_with_nul acc = false -> starts_with_nul (pretty_N_go n acc) = false.
Proof.
  revert acc. induction (N.lt_wf_0 n) as [n _ IH]; intros acc Hacc.
  destruct (decide (n = 0%N)) as [-> | Hpos].
  - by rewrite pretty_N_go_0.
  - rewrite pretty_N_go_step by lia.
    apply IH; [apply N.div_lt; lia |].
    cbn [starts_with_nul]. case_decide as Hnul; [| done].
    by apply pretty_N_char_not_nul in Hnul.
Qed.

Lemma pretty_Z_not_nul (x : Z) :
  0 <= x -> starts_with_nul (pretty x) = false.
Proof.
  intros Hx. destruct x as [| p | p]; [done | | lia].
  unfold pretty, pretty_Z, pretty, pretty_positive, pretty, pretty_N.
  case_decide; [done |]. by apply pretty_N_go_not_nul.
Qed.

Section RegistryFacts.

Context {O : Type} `{!IOptimisticOracleV3.Oracle O}.

Implicit Types (s : State O) (ctx : Env) (id : bytes32).

(** Every path through [settleAndGetAssertionResult]. *)
Lemma settle_paths ctx id s :
  settleAndGetAssertionResult ctx id s =
    if claimer (claim_at s id) =? address_zero
    then Reverted "Claim does not exist"
    else
      match oracle_settles ctx id s with
      | Reverted r => Reverted r
      | Success (result, o') =>
          if result && negb (isRewarded (claim_at s id)) then
            if REWARD_AMOUNT <=? balance s then
              if accepts_ether ctx (claimer (claim_at s id))
              then Success (result, rewarded_state s id o')
              else Reverted EmptyString
            else Reverted "Insufficient contract balance"
          else Success (result, resolved_state s id result o')
      end.
Proof.
  unfold settleAndGetAssertionResult, oracle_settles, update_claim.
  tx_unfold.
  destruct (claimer (claim_at s id) =? address_zero); tx_simpl;
    [reflexivity |].
  destruct (IOptimisticOracleV3.settleAndGetAssertionResult _ _ _ _)
    as [[result o'] | r]; tx_simpl; [| reflexivity].
  destruct result, (isRewarded (claim_at s id)); tx_simpl;
    try reflexivity.
  destruct (REWARD_AMOUNT <=? balance s) eqn:Hbal; tx_simpl;
    [| reflexivity].
  rewrite Hbal; tx_simpl.
  destruct (accepts_ether ctx (claimer (claim_at s id))); tx_simpl;
    [| reflexivity].
  unfold rewarded_state.
  by rewrite insert_insert_eq, <- app_assoc.
Qed.

(** After a settlement that does not pay, the claim read back. *)
Lemma claim_at_resolved_state s id result o' :
  claim_at (resolved_state s id result o') id
  = set_isResolved true (claim_at s id).
Proof. apply claim_at_insert. Qed.

Lemma claim_at_rewarded_state s id o' :
  claim_at (rewarded_state s id o') id
  = set_isRewarded true (set_isResolved true (claim_at s id)).
Proof. apply claim_at_insert. Qed.

Lemma claimer_nonzero s id :
  claimer (claim_at s id) <> address_zero ->
  (claimer (claim_at s id) =? address_zero) = false.
Proof. intros Hne. by apply Z.eqb_neq. Qed.

(** C1 (amended): for an existing claim that is not yet rewarded, when
    the oracle returns true, the registry's balance covers the fixed
    reward of 0.01 ether and the stored claimer's account takes the
    transfer, the settlement returns true, marks the claim rewarded,
    lowers the registry's balance by exactly the reward, sends that
    amount to the claimer and logs [RewardPaid] with the amount and the
    claimer. *)
Theorem settle_pays_reward ctx id s o' :
  claimer (claim_at s id) <> address_zero ->
  oracle_settles ctx id s = Success (true, o') ->
  isRewarded (claim_at s id) = false ->
  REWARD_AMOUNT <= balance s ->
  accepts_ether ctx (claimer (claim_at s id)) = true ->
  REWARD_AMOUNT * 100 = ether /\ reward_paid ctx id s.
Proof.
  intros Hex Horacle Hnot Hbal Htakes.
  split; [reflexivity |].
  exists (rewarded_state s id o').
  unfold transact.
  rewrite settle_paths, (claimer_nonzero _ _ Hex), Horacle, Hnot, Htakes.
  apply Z.leb_le in Hbal. rewrite Hbal. cbn [andb negb].
  rewrite claim_at_rewarded_state.
  repeat split.
Qed.

(** C3: for an existing claim that is not yet rewarded, when the oracle
    returns true and the registry's balance is below the reward, the
    call reverts and the chain state is the one before the call: no
    flag of the claim, [isResolved] included, has changed. *)
Theorem settle_insufficient_balance ctx id s o' :
  claimer (claim_at s id) <> address_zero ->
  oracle_settles ctx id s = Success (true, o') ->
  isRewarded (claim_at s id) = false ->
  balance s < REWARD_AMOUNT ->
  transact (settleAndGetAssertionResult ctx id) s
  = (s, Reverted "Insufficient contract balance") /\
  isResolved (claim_at (after (settleAndGetAssertionResult ctx id) s) id)
  = isResolved (claim_at s id).
Proof.
  intros Hex Horacle Hnot Hbal.
  assert (transact (settleAndGetAssertionResult ctx id) s
          = (s, Reverted "Insufficient contract balance")) as Hrun.
  { unfold transact.
    rewrite settle_paths, (claimer_nonzero _ _ Hex), Horacle, Hnot.
    apply Z.leb_gt in Hbal. by rewrite Hbal. }
  split; [exact Hrun |].
  unfold after. by rewrite Hrun.
Qed.

(** C5: when no claim exists for the identifier (the claimer read there
    is [address(0)]), the settlement reverts with the registry's own
    reason whatever the oracle is and would answer, and the chain state
    is the one before the call. *)
Theorem settle_unknown_claim ctx id s :
  claimer (claim_at s id) = address_zero ->
  transact (settleAndGetAssertionResult ctx id) s
  = (s, Reverted "Claim does not exist").
Proof.
  intros Hzero. unfold transact.
  by rewrite settle_paths, Hzero.
Qed.

(** C7: a settlement that returns has been asked for an existing claim;
    it returns the boolean the oracle answered, leaves [isResolved]
    true whatever that boolean is, and logs [ClaimResolved] with it
    right after the events already there; when the boolean is false
    the [isRewarded] flag is the one before the call, nothing is sent,
    the balance is unchanged and no other event is logged. *)
Theorem settle_success ctx id s result s' :
  settleAndGetAssertionResult ctx id s = Success (result, s') ->
  claimer (claim_at s id) <> address_zero /\
  (exists o', oracle_settles ctx id s = Success (result, o')) /\
  isResolved (claim_at s' id) = true /\
  (exists rest,
     events s' = (events s ++ ClaimResolved id result :: rest)%list) /\
  (result = false ->
     isRewarded (claim_at s' id) = isRewarded (claim_at s id) /\
     sent s' = sent s /\ balance s' = balance s /\
     events s' = (events s ++ [ClaimResolved id false])%list).
Proof.
  rewrite settle_paths.
  destruct (claimer (claim_at s id) =? address_zero) eqn:Hex;
    [discriminate |].
  apply Z.eqb_neq in Hex.
  destruct (oracle_settles ctx id s) as [[r o'] | reason] eqn:Horacle;
    [| discriminate].
  destruct (r && negb (isRewarded (claim_at s id))) eqn:Hpay.
  - destruct (REWARD_AMOUNT <=? balance s); [| discriminate].
    destruct (accepts_ether ctx (claimer (claim_at s id)));
      [| discriminate].
    intros [= <- <-].
    apply andb_true_iff in Hpay as [-> _].
    rewrite claim_at_rewarded_state.
    split_and!; [done | by eexists | done | by eexists | done].
  - intros [= <- <-].
    rewrite claim_at_resolved_state.
    split_and!; [done | by eexists | done | by exists [] |].
    by intros ->.
Qed.

(** Every path through [submitClaim]. *)
Lemma submit_paths ctx handle text s :
  submitClaim ctx handle text s =
    match oracle_asserts ctx handle text s with
    | Success (id, o') =>
        Success (id, submitted_state ctx handle text s id o')
    | Reverted r => Reverted r
    end.
Proof.
  unfold submitClaim, oracle_asserts. tx_unfold.
  by destruct (IOptimisticOracleV3.assertTruthWithDefaults _ _ _ _ _)
    as [[id o'] | r].
Qed.

(** C10: a [submitClaim] that returns [id] leaves at key [id] the record
    with the caller as claimer, [id] as [assertionId], the handle and
    the text given and both flags false; and it returns whenever the
    oracle's assertion call does, whatever the mapping held at [id]
    before: an earlier claim under the same identifier is replaced. *)
Theorem submitClaim_writes_record ctx handle text s id :
  (forall s', submitClaim ctx handle text s = Success (id, s') ->
     claims s' !! id =
       Some {| assertedClaim :=
                 packedClaim handle text (block_timestamp ctx);
               claimer := msg_sender ctx; twitterHandle := handle;
               tweetText := text; assertionId := id;
               isResolved := false; isRewarded := false |}) /\
  (forall o', oracle_asserts ctx handle text s = Success (id, o') ->
     exists s', submitClaim ctx handle text s = Success (id, s')).
Proof.
  rewrite submit_paths. split.
  - intros s'. destruct (oracle_asserts ctx handle text s)
      as [[id' o'] | r]; [| discriminate].
    intros [= -> <-]. cbn [submitted_state claims].
    by rewrite lookup_insert_eq.
  - intros o' ->. by eexists.
Qed.

(** Every path through [canBeSettled]. *)
Lemma canBeSettled_paths ctx id s :
  canBeSettled ctx id s =
    if claimer (claim_at s id) =? address_zero then Success (false, s)
    else if isResolved (claim_at s id) then Success (false, s)
    else
      match IOptimisticOracleV3.getAssertion id (oov3 s) with
      | Success a =>
          Success (negb (IOptimisticOracleV3.settled a) &&
                   (IOptimisticOracleV3.expirationTime a
                      <=? block_timestamp ctx), s)
      | Reverted r => Reverted r
      end.
Proof.
  unfold canBeSettled. tx_unfold.
  destruct (claimer (claim_at s id) =? address_zero); [done |].
  destruct (isResolved (claim_at s id)); [done |].
  by destruct (IOptimisticOracleV3.getAssertion id (oov3 s)).
Qed.

(** C6: [canBeSettled] returns false when no claim exists for the
    identifier and when the stored claim is resolved; otherwise, with
    [a] the record the oracle returns for the identifier, it returns
    true exactly when [a] is not marked settled and the block timestamp
    is at or past [a]'s expiration time.  It never changes the state. *)
Theorem canBeSettled_spec ctx id s :
  (claimer (claim_at s id) = address_zero ->
     canBeSettled ctx id s = Success (false, s)) /\
  (isResolved (claim_at s id) = true ->
     canBeSettled ctx id s = Success (false, s)) /\
  (forall a,
     claimer (claim_at s id) <> address_zero ->
     isResolved (claim_at s id) = false ->
     IOptimisticOracleV3.getAssertion id (oov3 s) = Success a ->
     exists b,
       canBeSettled ctx id s = Success (b, s) /\
       (b = true <->
          IOptimisticOracleV3.settled a = false /\
          IOptimisticOracleV3.expirationTime a <= block_timestamp ctx)).
Proof.
  rewrite canBeSettled_paths. split_and!.
  - by intros ->.
  - intros ->. by destruct (claimer (claim_at s id) =? address_zero).
  - intros a Hex -> ->. rewrite (claimer_nonzero _ _ Hex).
    eexists; split; [reflexivity |].
    rewrite andb_true_iff, negb_true_iff, Z.leb_le. tauto.
Qed.

(** ** Steps as transitions *)

Lemma after_success {A} (tx : Tx (State O) A) s a s' :
  tx s = Success (a, s') -> after tx s = s'.
Proof. unfold after, transact. by intros ->. Qed.

Lemma after_reverted {A} (tx : Tx (State O) A) s r :
  tx s = Reverted r -> after tx s = s.
Proof. unfold after, transact. by intros ->. Qed.

Lemma transition_same s st : transition s st s.
Proof. by apply transition_quiet. Qed.

Lemma after_getAssertionResult id s : after (getAssertionResult id) s = s.
Proof.
  unfold after, transact, getAssertionResult, view_oov3.
  by destruct (IOptimisticOracleV3.getAssertionResult id (oov3 s)).
Qed.

Lemma after_getAssertion id s : after (getAssertion id) s = s.
Proof.
  unfold after, transact, getAssertion, view_oov3.
  by destruct (IOptimisticOracleV3.getAssertion id (oov3 s)).
Qed.

Lemma after_getClaimDetails id s : after (getClaimDetails id) s = s.
Proof. reflexivity. Qed.

Lemma after_isClaimVerified id s : after (isClaimVerified id) s = s.
Proof.
  unfold after, transact, isClaimVerified. tx_unfold.
  by destruct (isResolved (claim_at s id)).
Qed.

Lemma after_canBeSettled ctx id s : after (canBeSettled ctx id) s = s.
Proof.
  unfold after, transact. rewrite canBeSettled_paths.
  destruct (claimer (claim_at s id) =? address_zero); [done |].
  destruct (isResolved (claim_at s id)); [done |].
  by destruct (IOptimisticOracleV3.getAssertion id (oov3 s)).
Qed.

(** Every step is one of the four transitions. *)
Lemma step_transition st s : transition s st (step st s).
Proof.
  destruct st as [ctx c | o']; [| by apply transition_quiet].
  destruct c as [handle text | id | id | id | id | id | id | value];
    cbn [step perform].
  - destruct (oracle_asserts ctx handle text s) as [[id o'] | r] eqn:Ho.
    + erewrite after_success
        by (rewrite submit_paths, Ho; reflexivity).
      by apply transition_submitted.
    + erewrite after_reverted
        by (rewrite submit_paths, Ho; reflexivity).
      apply transition_same.
  - pose proof (settle_paths ctx id s) as Hp.
    destruct (claimer (claim_at s id) =? address_zero) eqn:Hex.
    { erewrite after_reverted by exact Hp. apply transition_same. }
    apply Z.eqb_neq in Hex.
    destruct (oracle_settles ctx id s) as [[result o'] | r].
    2: { erewrite after_reverted by exact Hp. apply transition_same. }
    destruct (result && negb (isRewarded (claim_at s id))) eqn:Hpay.
    2: { erewrite after_success by exact Hp.
         by apply transition_resolved. }
    apply andb_true_iff in Hpay as [-> Hnot].
    apply negb_true_iff in Hnot.
    destruct (REWARD_AMOUNT <=? balance s) eqn:Hbal.
    2: { erewrite after_reverted by exact Hp. apply transition_same. }
    apply Z.leb_le in Hbal.
    destruct (accepts_ether ctx (claimer (claim_at s id))).
    2: { erewrite after_reverted by exact Hp. apply transition_same. }
    erewrite after_success by exact Hp.
    by apply transition_rewarded.
  - rewrite after_getAssertionResult. apply transition_same.
  - rewrite after_getAssertion. apply transition_same.
  - rewrite after_getClaimDetails. apply transition_same.
  - rewrite after_isClaimVerified. apply transition_same.
  - rewrite after_canBeSettled. apply transition_same.
  - by apply transition_quiet.
Qed.

(** ** The invariant of the mapping *)

Lemma claim_invariant_claims s s' id :
  claims s' = claims s -> claim_invariant s id -> claim_invariant s' id.
Proof. unfold claim_invariant. by intros ->. Qed.

Lemma claim_invariant_written s' id c :
  claims s' !! id = Some c ->
  claimer c <> address_zero ->
  (isRewarded c = true -> isResolved c = true) ->
  claim_invariant s' id.
Proof.
  intros Hc Hex Hflags. unfold claim_invariant. rewrite Hc. cbn [default].
  split; [| exact Hflags]. split; [done | by eexists].
Qed.

Lemma claim_invariant_elsewhere s s' id id' c :
  claims s' = <[id := c]> (claims s) -> id <> id' ->
  claim_invariant s id' -> claim_invariant s' id'.
Proof.
  intros Hc Hne. unfold claim_invariant.
  by rewrite Hc, lookup_insert_ne.
Qed.

(** C8: the freshly deployed registry satisfies the invariant, and
    every step taken by an account (a call to any entry point, reverted
    or not, or a move of the oracle) keeps it: at every identifier a
    record is stored exactly when its claimer is not [address(0)], and
    [isRewarded] implies [isResolved]. *)
Theorem registry_invariant_preserved :
  (forall o : O, registry_invariant (deployed o)) /\
  (forall (st : Step O) s,
     sender_is_account st ->
     registry_invariant s -> registry_invariant (step st s)).
Proof.
  split.
  - intros o id. unfold claim_invariant, deployed; cbn [claims].
    rewrite lookup_empty. cbn [default zeroClaim claimer isRewarded].
    split; [| done]. split; [by intros [? ?] | done].
  - intros st s Hsender Hinv id'.
    destruct (step_transition st s)
      as [st s' Hclaims _ _ | ctx handle text id o' _
          | ctx id result o' Hex _ | ctx id o' Hex _ _].
    + by apply (claim_invariant_claims s).
    + destruct (decide (id = id')) as [<- | Hne].
      * eapply claim_invariant_written;
          [apply lookup_insert_eq | exact Hsender | done].
      * by eapply claim_invariant_elsewhere.
    + destruct (decide (id = id')) as [<- | Hne].
      * eapply claim_invariant_written;
          [apply lookup_insert_eq | exact Hex | done].
      * by eapply claim_invariant_elsewhere.
    + destruct (decide (id = id')) as [<- | Hne].
      * eapply claim_invariant_written;
          [apply lookup_insert_eq | exact Hex | done].
      * by eapply claim_invariant_elsewhere.
Qed.

(** ** One reward per stored claim *)

Lemma rewards_paid_app id (l l' : list Event) :
  rewards_paid id (l ++ l') = (rewards_paid id l + rewards_paid id l')%nat.
Proof. unfold rewards_paid. by rewrite List.filter_app, List.length_app. Qed.

Lemma claim_at_elsewhere s s' id id' c :
  claims s' = <[id := c]> (claims s) -> id <> id' ->
  claim_at s' id' = claim_at s id'.
Proof.
  intros Hc Hne. unfold claim_at. by rewrite Hc, lookup_insert_ne.
Qed.

(** A step that does not store a new claim under [id] neither clears the
    [isRewarded] flag of [id] nor logs a [RewardPaid] for it. *)
Lemma step_keeps_rewarded id st s :
  isRewarded (claim_at s id) = true ->
  ~ stores_under id st s ->
  isRewarded (claim_at (step st s) id) = true /\
  rewards_paid id (events (step st s)) = rewards_paid id (events s).
Proof.
  intros Hpaid Hfresh.
  destruct (step_transition st s)
    as [st s' Hclaims Hevents _ | ctx handle text id0 o' Ho
        | ctx id0 result o' _ _ | ctx id0 o' _ Hnot _].
  - unfold claim_at. by rewrite Hclaims, Hevents.
  - destruct (decide (id0 = id)) as [-> | Hne].
    + destruct Hfresh. cbn [stores_under].
      eexists. rewrite submit_paths, Ho. reflexivity.
    + erewrite claim_at_elsewhere by (reflexivity || done).
      split; [done |]. cbn [submitted_state events].
      rewrite rewards_paid_app. cbn. lia.
  - split.
    + destruct (decide (id0 = id)) as [-> | Hne].
      * by rewrite claim_at_resolved_state.
      * by erewrite claim_at_elsewhere by (reflexivity || done).
    + cbn [resolved_state events]. rewrite rewards_paid_app. cbn. lia.
  - destruct (decide (id0 = id)) as [-> | Hne]; [congruence |].
    erewrite claim_at_elsewhere by (reflexivity || done).
    split; [done |]. cbn [rewarded_state events].
    rewrite rewards_paid_app. unfold rewards_paid at 2.
    cbn [List.filter is_RewardPaid].
    apply Z.eqb_neq in Hne. rewrite Hne. cbn [length]. lia.
Qed.

Lemma run_keeps_rewarded id steps s :
  isRewarded (claim_at s id) = true ->
  never_stores_under id steps s ->
  isRewarded (claim_at (run steps s) id) = true /\
  rewards_paid id (events (run steps s)) = rewards_paid id (events s).
Proof.
  revert s. induction steps as [| st rest IH]; intros s Hpaid Hfresh.
  - done.
  - destruct Hfresh as [Hst Hrest].
    destruct (step_keeps_rewarded id st s Hpaid Hst) as [Hpaid' Hlog].
    destruct (IH (step st s) Hpaid' Hrest) as [Hpaid'' Hlog'].
    cbn [run fold_left]. fold (run rest (step st s)).
    split; [done | congruence].
Qed.

(** A settlement of a rewarded claim pays nothing. *)
Lemma settle_rewarded_no_payment ctx id s :
  isRewarded (claim_at s id) = true ->
  let s' := after (settleAndGetAssertionResult ctx id) s in
  isRewarded (claim_at s' id) = true /\
  rewards_paid id (events s') = rewards_paid id (events s) /\
  sent s' = sent s /\ balance s' = balance s.
Proof.
  intros Hpaid s'. subst s'.
  pose proof (settle_paths ctx id s) as Hp.
  destruct (claimer (claim_at s id) =? address_zero).
  { by erewrite after_reverted by exact Hp. }
  destruct (oracle_settles ctx id s) as [[result o'] | r].
  2: { by erewrite after_reverted by exact Hp. }
  rewrite Hpaid, andb_false_r in Hp.
  erewrite after_success by exact Hp.
  rewrite claim_at_resolved_state. cbn [resolved_state events sent balance].
  rewrite rewards_paid_app. cbn [set_isResolved isRewarded].
  split_and!; [done | cbn; lia | done | done].
Qed.

(** After a settlement of [id] that paid the reward, as long as no later
    [submitClaim] stores a new claim under the same identifier, no step
    logs another [RewardPaid] for [id], and a further settlement of [id],
    whatever the oracle answers, sends nothing, leaves the balance alone
    and logs no [RewardPaid]. *)
Lemma no_second_reward ctx id s s1 steps ctx' :
  settleAndGetAssertionResult ctx id s = Success (true, s1) ->
  rewards_paid id (events s1) = S (rewards_paid id (events s)) ->
  never_stores_under id steps s1 ->
  let s2 := run steps s1 in
  let s3 := after (settleAndGetAssertionResult ctx' id) s2 in
  rewards_paid id (events s2) = rewards_paid id (events s1) /\
  rewards_paid id (events s3) = rewards_paid id (events s1) /\
  sent s3 = sent s2 /\ balance s3 = balance s2.
Proof.
  intros Hsettle Hlog Hfresh s2 s3.
  assert (isRewarded (claim_at s1 id) = true) as Hpaid.
  { rewrite settle_paths in Hsettle.
    destruct (claimer (claim_at s id) =? address_zero); [discriminate |].
    destruct (oracle_settles ctx id s) as [[result o'] | r];
      [| discriminate].
    destruct (result && negb (isRewarded (claim_at s id))).
    - destruct (REWARD_AMOUNT <=? balance s); [| discriminate].
      destruct (accepts_ether ctx (claimer (claim_at s id)));
        [| discriminate].
      injection Hsettle as _ <-. by rewrite claim_at_rewarded_state.
    - injection Hsettle as _ <-.
      cbn [resolved_state events] in Hlog.
      rewrite rewards_paid_app in Hlog. cbn in Hlog. lia. }
  destruct (run_keeps_rewarded id steps s1 Hpaid Hfresh) as [Hpaid2 Hlog2].
  destruct (settle_rewarded_no_payment ctx' id s2 Hpaid2)
    as (_ & Hlog3 & Hsent & Hbal).
  subst s2 s3. split_and!; [done | congruence | done | done].
Qed.

(** C4: the bytes [submitClaim] stores as [assertedClaim] are the
    literal fragments with the handle and the text followed by the 32
    raw bytes of the timestamp word; for every timestamp below
    [2 ^ 248] they differ from the sentence of the specification, which
    carries the timestamp in decimal digits. *)
Theorem assertedClaim_not_the_sentence ctx handle text s id s' :
  0 <= block_timestamp ctx < 2 ^ 248 ->
  submitClaim ctx handle text s = Success (id, s') ->
  assertedClaim (claim_at s' id)
  = "Twitter user @" +:+ handle +:+
    " posted a tweet with the exact text: '" +:+ text +:+
    "' as of timestamp " +:+ be_bytes 32 (block_timestamp ctx) /\
  assertedClaim (claim_at s' id)
  <> assertion_sentence handle text (block_timestamp ctx).
Proof.
  intros Hts. rewrite submit_paths.
  destruct (oracle_asserts ctx handle text s) as [[id' o'] | r];
    [| discriminate].
  intros [= -> <-].
  unfold submitted_state. rewrite claim_at_insert.
  cbn [submitted_claim assertedClaim].
  split; [reflexivity |].
  unfold packedClaim, assertion_sentence. intros Heq.
  do 5 apply (inj (String.append _)) in Heq.
  pose proof (encodePacked_uint256_nul _ Hts) as Hnul.
  rewrite Heq, pretty_Z_not_nul in Hnul by lia.
  discriminate.
Qed.

End RegistryFacts.

(** ** The settlements of the sample claim *)

Lemma settle_pays_reward_witness :
  REWARD_AMOUNT * 100 = ether /\
  reward_paid (Sample.call_at 1700007201 true) 7
              (Sample.pending Sample.upholding).
Proof.
  eapply (settle_pays_reward (Sample.call_at 1700007201 true) 7
            (Sample.pending Sample.upholding)).
  - vm_compute. discriminate.
  - vm_compute. reflexivity.
  - vm_compute. reflexivity.
  - vm_compute. discriminate.
  - vm_compute. reflexivity.
Defined.

(** C1 as stated fails: the claim exists, the oracle returns true, the
    claim is not rewarded and the balance covers the reward, yet the
    claimer's account does not take the transfer, the settlement reverts
    and no reward is paid. *)
Lemma settle_reward_refused :
  let ctx := Sample.call_at 1700007201 false in
  let s := Sample.pending Sample.upholding in
  claimer (claim_at s 7) <> address_zero /\
  (exists o', oracle_settles ctx 7 s = Success (true, o')) /\
  isRewarded (claim_at s 7) = false /\
  REWARD_AMOUNT <= balance s /\
  transact (settleAndGetAssertionResult ctx 7) s = (s, Reverted EmptyString) /\
  ~ reward_paid ctx 7 s.
Proof.
  intros ctx s. split_and!.
  - vm_compute. discriminate.
  - eexists. vm_compute. reflexivity.
  - vm_compute. reflexivity.
  - vm_compute. discriminate.
  - vm_compute. reflexivity.
  - intros [s' [Hrun _]]. vm_compute in Hrun. discriminate Hrun.
Qed.

Lemma no_second_reward_witness :
  let s1 := Sample.settled Sample.upholding in
  let s2 := run [Invoke (Sample.call_at 1700007300 true)
                        (Call_settleAndGetAssertionResult 7);
                 Invoke (Sample.call_at 1700007400 true) (Call_receive 5)]
                s1 in
  let s3 := after (settleAndGetAssertionResult
                     (Sample.call_at 1700007500 true) 7) s2 in
  rewards_paid 7 (events s2) = rewards_paid 7 (events s1) /\
  rewards_paid 7 (events s3) = rewards_paid 7 (events s1) /\
  sent s3 = sent s2 /\ balance s3 = balance s2.
Proof.
  eapply (no_second_reward (Sample.call_at 1700007201 true) 7
            (Sample.pending Sample.upholding)).
  - vm_compute. reflexivity.
  - vm_compute. reflexivity.
  - cbn [never_stores_under stores_under]. tauto.
Defined.

(** Why the identifiers have to be fresh: [submitClaim] writes the record
    without looking at the key, so an oracle that broke its contract and
    handed out 7 again would have the flags of 7 cleared, and the next
    settlement of 7 would pay once more. *)
Lemma second_reward_after_resubmission :
  let s1 := Sample.settled Sample.upholding in
  let s2 := after (submitClaim (Sample.call_at 1700007300 true)
                     Sample.handle Sample.text) s1 in
  let s3 := after (settleAndGetAssertionResult
                     (Sample.call_at 1700007400 true) 7) s2 in
  rewards_paid 7 (events s1) = 1%nat /\
  sent s1 = [(Sample.alice, REWARD_AMOUNT)] /\
  rewards_paid 7 (events s3) = 2%nat /\
  sent s3 = [(Sample.alice, REWARD_AMOUNT); (Sample.alice, REWARD_AMOUNT)] /\
  balance s3 = balance s1 - REWARD_AMOUNT.
Proof. vm_compute. repeat split. Qed.

(** Such a run is not one with fresh identifiers: the identifier handed
    out is a key of the mapping already. *)
Lemma resubmission_is_not_fresh :
  ~ fresh_identifier
      (Invoke (Sample.call_at 1700007300 true)
              (Call_submitClaim Sample.handle Sample.text))
      (Sample.settled Sample.upholding).
Proof.
  intros Hfresh. cbn [fresh_identifier] in Hfresh.
  assert (claims (Sample.settled Sample.upholding) !! 7 = None) as Hnone.
  { eapply Hfresh. rewrite submit_paths. vm_compute. reflexivity. }
  vm_compute in Hnone. discriminate Hnone.
Qed.

Lemma settle_insufficient_balance_witness :
  let ctx := Sample.call_at 1700007201 true in
  let s := Sample.pending_unfunded Sample.upholding in
  transact (settleAndGetAssertionResult ctx 7) s
  = (s, Reverted "Insufficient contract balance") /\
  isResolved (claim_at (after (settleAndGetAssertionResult ctx 7) s) 7)
  = isResolved (claim_at s 7).
Proof.
  eapply (settle_insufficient_balance (Sample.call_at 1700007201 true) 7
            (Sample.pending_unfunded Sample.upholding)).
  - vm_compute. discriminate.
  - vm_compute. reflexivity.
  - vm_compute. reflexivity.
  - vm_compute. reflexivity.
Defined.

Lemma settle_unknown_claim_witness :
  let s := Sample.pending Sample.upholding in
  transact (settleAndGetAssertionResult (Sample.call_at 1700007201 true) 8) s
  = (s, Reverted "Claim does not exist").
Proof.
  apply (settle_unknown_claim (Sample.call_at 1700007201 true) 8
           (Sample.pending Sample.upholding)).
  vm_compute. reflexivity.
Defined.

Lemma settle_success_witness :
  let ctx := Sample.call_at 1700007201 true in
  let s := Sample.pending Sample.rejecting in
  let s' := after (settleAndGetAssertionResult ctx 7) s in
  claimer (claim_at s 7) <> address_zero /\
  (exists o', oracle_settles ctx 7 s = Success (false, o')) /\
  isResolved (claim_at s' 7) = true /\
  (exists rest,
     events s' = (events s ++ ClaimResolved 7 false :: rest)%list) /\
  (false = false ->
     isRewarded (claim_at s' 7) = isRewarded (claim_at s 7) /\
     sent s' = sent s /\ balance s' = balance s /\
     events s' = (events s ++ [ClaimResolved 7 false])%list).
Proof.
  apply (settle_success (Sample.call_at 1700007201 true) 7
           (Sample.pending Sample.rejecting) false).
  vm_compute. reflexivity.
Defined.

Lemma assertedClaim_not_the_sentence_witness :
  let s' := Sample.pending Sample.upholding in
  assertedClaim (claim_at s' 7)
  = "Twitter user @" +:+ Sample.handle +:+
    " posted a tweet with the exact text: '" +:+ Sample.text +:+
    "' as of timestamp " +:+ be_bytes 32 1700000000 /\
  assertedClaim (claim_at s' 7)
  <> assertion_sentence Sample.handle Sample.text 1700000000.
Proof.
  apply (assertedClaim_not_the_sentence (Sample.call_at 1700000000 true)
           Sample.handle Sample.text (Sample.funded Sample.upholding) 7).
  - vm_compute. split; [discriminate | reflexivity].
  - vm_compute. reflexivity.
Defined.

Lemma submitClaim_writes_record_witness :
  let ctx := Sample.call_at 1700007300 true in
  let s := Sample.settled Sample.upholding in
  isRewarded (claim_at s 7) = true /\
  exists s',
    submitClaim ctx Sample.handle Sample.text s = Success (7, s') /\
    claims s' !! 7 =
      Some {| assertedClaim :=
                packedClaim Sample.handle Sample.text 1700007300;
              claimer := Sample.alice; twitterHandle := Sample.handle;
              tweetText := Sample.text; assertionId := 7;
              isResolved := false; isRewarded := false |}.
Proof.
  intros ctx s. split; [vm_compute; reflexivity |].
  destruct (submitClaim_writes_record ctx Sample.handle Sample.text s 7)
    as [Hrecord Hreturns].
  destruct (Hreturns (oov3 s)) as [s' Hs'].
  - vm_compute. reflexivity.
  - exists s'. split; [exact Hs' |]. exact (Hrecord s' Hs').
Defined.

Lemma canBeSettled_spec_witness :
  let ctx := Sample.call_at 1700007201 true in
  canBeSettled ctx 8 (Sample.pending Sample.upholding)
  = Success (false, Sample.pending Sample.upholding) /\
  canBeSettled ctx 7 (Sample.settled Sample.upholding)
  = Success (false, Sample.settled Sample.upholding) /\
  exists b,
    canBeSettled ctx 7 (Sample.pending Sample.upholding)
    = Success (b, Sample.pending Sample.upholding) /\
    (b = true <-> false = false /\ 1700007200 <= 1700007201).
Proof.
  intros ctx. split_and!.
  - apply (proj1 (canBeSettled_spec ctx 8
                    (Sample.pending Sample.upholding))).
    vm_compute. reflexivity.
  - apply (proj1 (proj2 (canBeSettled_spec ctx 7
                           (Sample.settled Sample.upholding)))).
    vm_compute. reflexivity.
  - apply (proj2 (proj2 (canBeSettled_spec ctx 7
                           (Sample.pending Sample.upholding)))
             (Scripted.record Sample.upholding)).
    + vm_compute. discriminate.
    + vm_compute. reflexivity.
    + vm_compute. reflexivity.
Defined.

Lemma registry_invariant_preserved_witness :
  registry_invariant (Sample.pending Sample.upholding) /\
  registry_invariant (Sample.settled Sample.upholding).
Proof.
  destruct (@registry_invariant_preserved Scripted.t _) as [Hinit Hstep].
  assert (registry_invariant (Sample.pending Sample.upholding)) as Hpending.
  { apply (Hstep (Invoke (Sample.call_at 1700000000 true)
                         (Call_submitClaim Sample.handle Sample.text))).
    - vm_compute. discriminate.
    - apply (Hstep (Invoke (Sample.call_at 1700000000 true)
                           (Call_receive ether))).
      + vm_compute. discriminate.
      + apply Hinit. }
  split; [exact Hpending |].
  apply (Hstep (Invoke (Sample.call_at 1700007201 true)
                       (Call_settleAndGetAssertionResult 7))).
  - vm_compute. discriminate.
  - exact Hpending.
Defined.

(** The 32 bytes packed for the timestamp 1700000000 ([0x6553F100]): 28
    bytes 0, then [0x65], [0x53], [0xF1] and [0x00]; the sentence of the
    specification ends with the ten digits instead. *)
Lemma encodePacked_uint256_sample :
  map Ascii.N_of_ascii
      (String.list_ascii_of_string (encodePacked_uint256 1700000000))
  = (repeat 0%N 28 ++ [101; 83; 241; 0]%N)%list /\
  pretty 1700000000 = "1700000000".
Proof. vm_compute. split; reflexivity. Qed.

(** * Properties of the client *)

Module ClientFacts.
Import Client.

(** C9: in the status check, when an identifier is given, the provider
    is there and the read of the claim details succeeds, a failing read
    of the oracle's assertion record or of the settleability flag is
    not surfaced ([error] stays empty, [loading] is cleared, the claim
    status is shown) and [canSettle] is set to true. *)
Theorem checkClaimStatus_degrades w idToCheck st details :
  truthy (idToUse idToCheck st) = true ->
  window_ethereum w = true ->
  getClaimDetails w (idToUse idToCheck st) = Fulfilled details ->
  (exists m, getAssertion w (idToUse idToCheck st) = Rejected m) \/
  (exists m, canBeSettled w (idToUse idToCheck st) = Rejected m) ->
  let st' := checkClaimStatus w idToCheck st in
  canSettle st' = true /\
  error st' = EmptyString /\
  loading st' = false /\
  claimStatus st' =
    Some {| cs_claimer := d_claimer details;
            cs_twitterHandle := d_twitterHandle details;
            cs_tweetText := d_tweetText details;
            cs_resolved := d_isResolved details;
            cs_rewarded := d_isRewarded details |}.
Proof.
  intros Hid Hprovider Hdetails Hfails st'. subst st'.
  unfold checkClaimStatus.
  rewrite Hid, Hprovider, Hdetails. cbn [negb].
  unfold readAssertion.
  destruct (getAssertion w (idToUse idToCheck st)) as [a | m1].
  - destruct Hfails as [[m Hm] | [m Hm]]; [discriminate |].
    by rewrite Hm.
  - done.
Qed.

Lemma checkClaimStatus_degrades_witness :
  let st' := checkClaimStatus oracle_unreachable None idle in
  canSettle st' = true /\
  error st' = EmptyString /\
  loading st' = false /\
  claimStatus st' =
    Some {| cs_claimer := "0xA11CE"; cs_twitterHandle := "drextron";
            cs_tweetText := "Life is short, test in prod";
            cs_resolved := false; cs_rewarded := false |}.
Proof.
  apply (checkClaimStatus_degrades oracle_unreachable None idle
           pending_details).
  - vm_compute. reflexivity.
  - vm_compute. reflexivity.
  - vm_compute. reflexivity.
  - left. eexists. vm_compute. reflexivity.
Defined.

End ClientFacts.

(** * Further properties of the registry *)

Lemma substring_all (x : string) :
  String.substring 0 (String.length x) x = x.
Proof.
  induction x as [| a x IH]; [reflexivity |].
  cbn [String.length String.substring]. by rewrite IH.
Qed.

(** The end of a string, cut at the length of its beginning. *)
Lemma substring_skip (x y : string) :
  String.substring (String.length x) (String.length y) (x +:+ y) = y.
Proof.
  induction x as [| a x IH]; [apply substring_all |].
  change (String.substring (S (String.length x)) (String.length y)
            (String a (x +:+ y)) = y).
  cbn [String.substring]. exact IH.
Qed.

Section RegistryLedger.

Context {O : Type} `{!IOptimisticOracleV3.Oracle O}.

Implicit Types (s : State O) (ctx : Env) (id : bytes32).

(** Every step has one of the six effects. *)
Lemma step_effect st s : effect s st (step st s).
Proof.
  destruct st as [ctx c | o']; [| apply effect_moved].
  destruct c as [handle text | id | id | id | id | id | id | value];
    cbn [step perform].
  - destruct (oracle_asserts ctx handle text s) as [[id o'] | r] eqn:Ho.
    + erewrite after_success by (rewrite submit_paths, Ho; reflexivity).
      by apply effect_submitted.
    + erewrite after_reverted by (rewrite submit_paths, Ho; reflexivity).
      by apply effect_none.
  - pose proof (settle_paths ctx id s) as Hp.
    destruct (claimer (claim_at s id) =? address_zero) eqn:Hex.
    { erewrite after_reverted by exact Hp. by apply effect_none. }
    apply Z.eqb_neq in Hex.
    destruct (oracle_settles ctx id s) as [[result o'] | r] eqn:Ho.
    2: { erewrite after_reverted by exact Hp. by apply effect_none. }
    destruct (result && negb (isRewarded (claim_at s id))) eqn:Hpay.
    2: { erewrite after_success by exact Hp. by apply effect_resolved. }
    apply andb_true_iff in Hpay as [-> Hnot].
    apply negb_true_iff in Hnot.
    destruct (REWARD_AMOUNT <=? balance s) eqn:Hbal.
    2: { erewrite after_reverted by exact Hp. by apply effect_none. }
    apply Z.leb_le in Hbal.
    destruct (accepts_ether ctx (claimer (claim_at s id))) eqn:Htakes.
    2: { erewrite after_reverted by exact Hp. by apply effect_none. }
    erewrite after_success by exact Hp.
    by apply effect_rewarded.
  - rewrite after_getAssertionResult. by apply effect_none.
  - rewrite after_getAssertion. by apply effect_none.
  - rewrite after_getClaimDetails. by apply effect_none.
  - rewrite after_isClaimVerified. by apply effect_none.
  - rewrite after_canBeSettled. by apply effect_none.
  - apply effect_deposit.
Qed.

(** A property kept by every step is kept by every run. *)
Lemma run_induction (P : State O -> Prop) (ok : Step O -> Prop) steps s :
  (forall st s0, ok st -> P s0 -> P (step st s0)) ->
  Forall ok steps -> P s -> P (run steps s).
Proof.
  intros Hstep. revert s.
  induction steps as [| st rest IH]; intros s Hok Hs; [exact Hs |].
  inversion_clear Hok as [| ? ? Hst Hrest].
  cbn [run fold_left]. fold (run rest (step st s)).
  apply IH; [exact Hrest | by apply Hstep].
Qed.

Lemma run_app steps steps' s :
  run (steps ++ steps') s = run steps' (run steps s).
Proof. unfold run. apply fold_left_app. Qed.

Lemma total_sent_app (l l' : list (address * Z)) :
  total_sent (l ++ l') = total_sent l + total_sent l'.
Proof.
  unfold total_sent.
  induction l as [| p l IH]; cbn [fold_right app]; lia.
Qed.

Lemma payouts_app (l l' : list Event) :
  payouts (l ++ l') = (payouts l ++ payouts l')%list.
Proof. unfold payouts. apply flat_map_app. Qed.

(** ** Submission and settlement, seen from outside *)

Lemma isClaimVerified_returns id s :
  isClaimVerified id s
  = Success (isResolved (claim_at s id) && isRewarded (claim_at s id), s).
Proof.
  unfold isClaimVerified. tx_unfold.
  by destruct (isResolved (claim_at s id)).
Qed.

Lemma getClaimDetails_returns id s :
  getClaimDetails id s
  = Success ((claimer (claim_at s id), twitterHandle (claim_at s id),
              tweetText (claim_at s id), isResolved (claim_at s id),
              isRewarded (claim_at s id)), s).
Proof. reflexivity. Qed.

(** X1: a [submitClaim] that returns [id] touches nothing but the key
    [id] of the mapping: every other key, the balance and the transfers
    are those before the call, and the log grows by exactly the
    [ClaimSubmitted] event of the identifier, the caller, the handle and
    the text. *)
Theorem submitClaim_frame ctx handle text s id s' :
  submitClaim ctx handle text s = Success (id, s') ->
  (forall id', id' <> id -> claims s' !! id' = claims s !! id') /\
  balance s' = balance s /\
  sent s' = sent s /\
  events s' =
    (events s ++ [ClaimSubmitted id (msg_sender ctx) handle text])%list.
Proof.
  rewrite submit_paths.
  destruct (oracle_asserts ctx handle text s) as [[id0 o'] | r];
    [| discriminate].
  intros [= -> <-]. cbn [submitted_state claims balance sent events].
  split_and!; try reflexivity.
  intros id' Hne. by rewrite lookup_insert_ne.
Qed.

(** X2: a refusal of the oracle is the refusal of the registry: when the
    oracle's assertion call reverts, [submitClaim] reverts with the same
    reason, and when the oracle's settlement of an existing claim
    reverts, so does [settleAndGetAssertionResult]; in both cases the
    chain state is the one before the call. *)
Theorem oracle_refusal_propagates ctx s r :
  (forall handle text,
     oracle_asserts ctx handle text s = Reverted r ->
     transact (submitClaim ctx handle text) s = (s, Reverted r)) /\
  (forall id,
     claimer (claim_at s id) <> address_zero ->
     oracle_settles ctx id s = Reverted r ->
     transact (settleAndGetAssertionResult ctx id) s = (s, Reverted r)).
Proof.
  split.
  - intros handle text Ho. unfold transact. by rewrite submit_paths, Ho.
  - intros id Hex Ho. unfold transact.
    by rewrite settle_paths, (claimer_nonzero _ _ Hex), Ho.
Qed.

(** X3: a settlement of [id] that returns changes the two flags of the
    claim at [id] and nothing else in the mapping: the claimer, the
    handle, the text, the asserted bytes and the identifier stored at
    [id] and every other key are those before the call, and a flag that
    was true stays true. *)
Theorem settle_frame ctx id s result s' :
  settleAndGetAssertionResult ctx id s = Success (result, s') ->
  (forall id', id' <> id -> claims s' !! id' = claims s !! id') /\
  claimer (claim_at s' id) = claimer (claim_at s id) /\
  twitterHandle (claim_at s' id) = twitterHandle (claim_at s id) /\
  tweetText (claim_at s' id) = tweetText (claim_at s id) /\
  assertedClaim (claim_at s' id) = assertedClaim (claim_at s id) /\
  assertionId (claim_at s' id) = assertionId (claim_at s id) /\
  (isRewarded (claim_at s id) = true -> isRewarded (claim_at s' id) = true).
Proof.
  rewrite settle_paths.
  destruct (claimer (claim_at s id) =? address_zero); [discriminate |].
  destruct (oracle_settles ctx id s) as [[r o'] | reason]; [| discriminate].
  destruct (r && negb (isRewarded (claim_at s id))).
  - destruct (REWARD_AMOUNT <=? balance s); [| discriminate].
    destruct (accepts_ether ctx (claimer (claim_at s id)));
      [| discriminate].
    intros [= <- <-]. rewrite claim_at_rewarded_state.
    split_and!; try done.
    intros id' Hne. cbn [rewarded_state claims]. by rewrite lookup_insert_ne.
  - intros [= <- <-]. rewrite claim_at_resolved_state.
    split_and!; try done.
    intros id' Hne. cbn [resolved_state claims]. by rewrite lookup_insert_ne.
Qed.

(** X4: what is submitted is what is read back: after a [submitClaim]
    that returns [id], [getClaimDetails(id)] returns the caller, the
    handle and the text as given and both flags false, and
    [isClaimVerified(id)] returns false. *)
Theorem submitted_claim_reads_back ctx handle text s id s' :
  submitClaim ctx handle text s = Success (id, s') ->
  getClaimDetails id s'
  = Success ((msg_sender ctx, handle, text, false, false), s') /\
  isClaimVerified id s' = Success (false, s').
Proof.
  rewrite submit_paths.
  destruct (oracle_asserts ctx handle text s) as [[id0 o'] | r];
    [| discriminate].
  intros [= -> <-].
  rewrite getClaimDetails_returns, isClaimVerified_returns.
  unfold submitted_state. by rewrite claim_at_insert.
Qed.

(** X5: for a claim not yet rewarded, [isClaimVerified] after a
    settlement that returns is the boolean the settlement returned: the
    claim counts as verified exactly when the oracle upheld it. *)
Theorem verified_iff_upheld ctx id s result s' :
  isRewarded (claim_at s id) = false ->
  settleAndGetAssertionResult ctx id s = Success (result, s') ->
  isClaimVerified id s' = Success (result, s').
Proof.
  intros Hnot. rewrite settle_paths, Hnot. cbn [negb].
  destruct (claimer (claim_at s id) =? address_zero); [discriminate |].
  destruct (oracle_settles ctx id s) as [[r o'] | reason]; [| discriminate].
  rewrite andb_true_r. destruct r.
  - destruct (REWARD_AMOUNT <=? balance s); [| discriminate].
    destruct (accepts_ether ctx (claimer (claim_at s id)));
      [| discriminate].
    intros [= <- <-].
    by rewrite isClaimVerified_returns, claim_at_rewarded_state.
  - intros [= <- <-].
    rewrite isClaimVerified_returns, claim_at_resolved_state.
    cbn [set_isResolved isResolved isRewarded]. by rewrite Hnot.
Qed.

(** X6: in a state that satisfies the invariant of the mapping, an
    identifier without a claim reads as nothing at all:
    [getClaimDetails] returns the zero address, two empty strings and
    two false flags, and [isClaimVerified] and [canBeSettled] return
    false. *)
Theorem unknown_claim_reads ctx id s :
  registry_invariant s ->
  claimer (claim_at s id) = address_zero ->
  getClaimDetails id s
  = Success ((address_zero, EmptyString, EmptyString, false, false), s) /\
  isClaimVerified id s = Success (false, s) /\
  canBeSettled ctx id s = Success (false, s).
Proof.
  intros Hinv Hzero.
  assert (claim_at s id = zeroClaim) as Hclaim.
  { destruct (Hinv id) as [Hstored _]. unfold claim_at in *.
    destruct (claims s !! id) as [c |] eqn:Hc; [| done].
    cbn [default] in *. destruct Hstored as [Hstored _].
    by destruct Hstored; [eexists |]. }
  rewrite getClaimDetails_returns, isClaimVerified_returns,
    canBeSettled_paths, Hclaim.
  done.
Qed.

(** ** The life of a stored claim *)

Lemma claim_at_submitted_ne ctx handle text s id0 o' id :
  id0 <> id ->
  claim_at (submitted_state ctx handle text s id0 o') id = claim_at s id.
Proof. intros Hne. by eapply claim_at_elsewhere. Qed.

Lemma claim_at_resolved_ne s id0 result o' id :
  id0 <> id -> claim_at (resolved_state s id0 result o') id = claim_at s id.
Proof. intros Hne. by eapply claim_at_elsewhere. Qed.

Lemma claim_at_rewarded_ne s id0 o' id :
  id0 <> id -> claim_at (rewarded_state s id0 o') id = claim_at s id.
Proof. intros Hne. by eapply claim_at_elsewhere. Qed.

Lemma grown_refl c : grown c c.
Proof. by repeat split. Qed.

Lemma grown_trans c1 c2 c3 : grown c1 c2 -> grown c2 c3 -> grown c1 c3.
Proof.
  intros (? & ? & ? & ? & ? & ? & ?) (? & ? & ? & ? & ? & ? & ?).
  repeat split; try congruence; auto.
Qed.

(** A step that stores no new claim under [id] lets the claim at [id]
    grow. *)
Lemma step_grows id st s :
  ~ stores_under id st s -> grown (claim_at s id) (claim_at (step st s) id).
Proof.
  intros Hfresh.
  destruct (step_effect st s)
    as [st _ | o' | ctx value | ctx handle text id0 o' Ho
        | ctx id0 result o' _ _ _ | ctx id0 o' _ _ _ _ _];
    try apply grown_refl.
  - destruct (decide (id0 = id)) as [-> | Hne].
    + destruct Hfresh. cbn [stores_under].
      eexists. rewrite submit_paths, Ho. reflexivity.
    + rewrite claim_at_submitted_ne by done. apply grown_refl.
  - destruct (decide (id0 = id)) as [-> | Hne].
    + rewrite claim_at_resolved_state. by repeat split.
    + rewrite claim_at_resolved_ne by done. apply grown_refl.
  - destruct (decide (id0 = id)) as [-> | Hne].
    + rewrite claim_at_rewarded_state. by repeat split.
    + rewrite claim_at_rewarded_ne by done. apply grown_refl.
Qed.

Lemma run_grows id steps s :
  never_stores_under id steps s ->
  grown (claim_at s id) (claim_at (run steps s) id).
Proof.
  revert s. induction steps as [| st rest IH]; intros s Hfresh.
  - apply grown_refl.
  - destruct Hfresh as [Hst Hrest].
    cbn [run fold_left]. fold (run rest (step st s)).
    eapply grown_trans; [by apply step_grows | by apply IH].
Qed.

(** X7: along any sequence of calls and oracle moves in which no
    [submitClaim] stores a new claim under [id], the claim at [id] keeps
    its claimer, handle, text, asserted bytes and identifier, and its
    flags [isResolved] and [isRewarded] are never taken back. *)
Theorem claim_only_grows id steps s :
  never_stores_under id steps s ->
  claimer (claim_at (run steps s) id) = claimer (claim_at s id) /\
  twitterHandle (claim_at (run steps s) id) = twitterHandle (claim_at s id) /\
  tweetText (claim_at (run steps s) id) = tweetText (claim_at s id) /\
  assertedClaim (claim_at (run steps s) id) = assertedClaim (claim_at s id) /\
  assertionId (claim_at (run steps s) id) = assertionId (claim_at s id) /\
  (isResolved (claim_at s id) = true ->
     isResolved (claim_at (run steps s) id) = true) /\
  (isRewarded (claim_at s id) = true ->
     isRewarded (claim_at (run steps s) id) = true).
Proof. intros Hfresh. exact (run_grows id steps s Hfresh). Qed.

(** X8: once a settlement of [id] has returned, whatever the oracle
    answered, [canBeSettled(id)] returns false, without asking the
    oracle, in every later state reached without a new claim being
    stored under [id]. *)
Theorem settled_claim_not_settleable ctx id s result s1 steps ctx' :
  settleAndGetAssertionResult ctx id s = Success (result, s1) ->
  never_stores_under id steps s1 ->
  canBeSettled ctx' id (run steps s1) = Success (false, run steps s1).
Proof.
  intros Hsettle Hfresh.
  assert (isResolved (claim_at s1 id) = true) as Hres.
  { rewrite settle_paths in Hsettle.
    destruct (claimer (claim_at s id) =? address_zero); [discriminate |].
    destruct (oracle_settles ctx id s) as [[r o'] | reason];
      [| discriminate].
    destruct (r && negb (isRewarded (claim_at s id))).
    - destruct (REWARD_AMOUNT <=? balance s); [| discriminate].
      destruct (accepts_ether ctx (claimer (claim_at s id)));
        [| discriminate].
      injection Hsettle as _ <-. by rewrite claim_at_rewarded_state.
    - injection Hsettle as _ <-. by rewrite claim_at_resolved_state. }
  destruct (run_grows id steps s1 Hfresh) as (_ & _ & _ & _ & _ & Hkeep & _).
  rewrite canBeSettled_paths, (Hkeep Hres).
  by destruct (claimer (claim_at (run steps s1) id) =? address_zero).
Qed.

(** ** The ledger *)

(** What one step does to the balance and the transfers. *)
Lemma step_ledger st s :
  balance (step st s) + total_sent (sent (step st s))
  = balance s + total_sent (sent s) + deposit st /\
  balance (step st s) + REWARD_AMOUNT * Z.of_nat (length (sent (step st s)))
  = balance s + REWARD_AMOUNT * Z.of_nat (length (sent s)) + deposit st /\
  (0 <= balance s -> 0 <= deposit st -> 0 <= balance (step st s)).
Proof.
  destruct (step_effect st s)
    as [st Hnone | o' | ctx value | ctx handle text id0 o' _
        | ctx id0 result o' _ _ _ | ctx id0 o' _ _ _ Hbal _];
    cbn [moved_state deposited_state submitted_state resolved_state
         rewarded_state balance sent deposit].
  - lia.
  - lia.
  - lia.
  - lia.
  - lia.
  - rewrite total_sent_app, length_app. cbn [total_sent fold_right snd length].
    lia.
Qed.

(** X9: no wei is lost: after any sequence of calls and oracle moves,
    the registry's balance plus everything it has sent out is what it
    held and had sent out before, plus the deposits of the sequence. *)
Theorem ledger_balanced steps s :
  balance (run steps s) + total_sent (sent (run steps s))
  = balance s + total_sent (sent s) + deposits steps.
Proof.
  revert s. induction steps as [| st rest IH]; intros s.
  - cbn [run fold_left deposits fold_right]. lia.
  - cbn [run fold_left deposits fold_right].
    fold (run rest (step st s)). fold (deposits rest).
    rewrite IH. destruct (step_ledger st s) as [Hstep _]. lia.
Qed.

(** X10: the registry is never overdrawn and pays rewards out of its
    funds only: starting with a balance that is not negative, after any
    sequence of calls with unsigned deposits the balance is not
    negative, and the rewards sent in the meantime, at [REWARD_AMOUNT]
    each, are covered by the starting balance and the deposits. *)
Theorem never_overdrawn steps s :
  0 <= balance s ->
  deposits_unsigned steps ->
  0 <= balance (run steps s) /\
  REWARD_AMOUNT *
    (Z.of_nat (length (sent (run steps s))) - Z.of_nat (length (sent s)))
  <= balance s + deposits steps.
Proof.
  revert s. induction steps as [| st rest IH]; intros s Hbal Hdep.
  - cbn [run fold_left deposits fold_right]. lia.
  - inversion_clear Hdep as [| ? ? Hst Hrest].
    destruct (step_ledger st s) as (_ & Hcount & Hpos).
    destruct (IH (step st s) (Hpos Hbal Hst) Hrest) as [Hbal' Hcount'].
    cbn [run fold_left deposits fold_right].
    fold (run rest (step st s)). fold (deposits rest).
    split; [exact Hbal' | lia].
Qed.

(** One step keeps the transfers in line with the log. *)
Lemma step_payouts st s :
  sent s = payouts (events s) ->
  sent (step st s) = payouts (events (step st s)).
Proof.
  intros Hs.
  destruct (step_effect st s)
    as [st _ | o' | ctx value | ctx handle text id0 o' _
        | ctx id0 result o' _ _ _ | ctx id0 o' _ _ _ _ _];
    cbn [moved_state deposited_state submitted_state resolved_state
         rewarded_state sent events];
    rewrite ?payouts_app, ?Hs; cbn [payouts flat_map app];
    by rewrite ?app_nil_r.
Qed.

Lemma step_amounts st s :
  Forall (fun p => snd p = REWARD_AMOUNT) (sent s) ->
  Forall (fun p => snd p = REWARD_AMOUNT) (sent (step st s)).
Proof.
  intros Hs.
  destruct (step_effect st s)
    as [st _ | o' | ctx value | ctx handle text id0 o' _
        | ctx id0 result o' _ _ _ | ctx id0 o' _ _ _ _ _];
    cbn [moved_state deposited_state submitted_state resolved_state
         rewarded_state sent]; try exact Hs.
  apply Forall_app; split; [exact Hs |]. by repeat constructor.
Qed.

(** X11: in every state reached from deployment, the ether the registry
    has sent out is exactly what its [RewardPaid] events announce, in
    the same order, to the same accounts and in the same amounts, and
    every transfer is of [REWARD_AMOUNT]. *)
Theorem transfers_match_events (o : O) steps :
  sent (run steps (deployed o)) = payouts (events (run steps (deployed o))) /\
  Forall (fun p => snd p = REWARD_AMOUNT) (sent (run steps (deployed o))).
Proof.
  split.
  - apply (run_induction (fun s => sent s = payouts (events s))
                         (fun _ => True)).
    + intros st s0 _. apply step_payouts.
    + by apply Forall_forall.
    + reflexivity.
  - apply (run_induction
             (fun s => Forall (fun p => snd p = REWARD_AMOUNT) (sent s))
             (fun _ => True)).
    + intros st s0 _. apply step_amounts.
    + by apply Forall_forall.
    + constructor.
Qed.

(** ** The log and the mapping *)

Lemma claim_stored s id :
  claimer (claim_at s id) <> address_zero ->
  claims s !! id = Some (claim_at s id).
Proof.
  unfold claim_at. by destruct (claims s !! id).
Qed.

Lemma submitted_by_app id who (l l' : list Event) :
  submitted_by id who l -> submitted_by id who (l ++ l').
Proof.
  intros (handle & text & Hin). exists handle, text.
  apply in_or_app. by left.
Qed.

Lemma resolution_logged_app id (l l' : list Event) :
  resolution_logged id l -> resolution_logged id (l ++ l').
Proof.
  intros (truthful & Hin). exists truthful. apply in_or_app. by left.
Qed.

Lemma rewards_paid_grows id (l l' : list Event) :
  (0 < rewards_paid id l)%nat -> (0 < rewards_paid id (l ++ l'))%nat.
Proof. rewrite rewards_paid_app. lia. Qed.

(** What a write at [id0] leaves to show for the other keys. *)
Lemma lookup_written (m : gmap bytes32 Claim) id0 c0 id c :
  <[id0 := c0]> m !! id = Some c ->
  (id = id0 /\ c = c0) \/ (id <> id0 /\ m !! id = Some c).
Proof.
  destruct (decide (id0 = id)) as [-> | Hne].
  - rewrite lookup_insert_eq. intros [= <-]. by left.
  - rewrite lookup_insert_ne by done. intros Hc. right. by split.
Qed.

Lemma step_log_backs_claims st s :
  log_backs_claims s -> log_backs_claims (step st s).
Proof.
  intros (Hclaim & Hpaid & Hrew & Hres).
  destruct (step_effect st s)
    as [st _ | o' | ctx value | ctx handle text id0 o' _
        | ctx id0 result o' Hex _ _ | ctx id0 o' Hex _ _ _ _];
    try (by repeat split).
  - (* a claim is stored *)
    unfold log_backs_claims.
    cbn [submitted_state claims events]. split_and!.
    + intros id c [[-> ->] | [_ Hc]]%lookup_written.
      * exists handle, text. apply in_or_app. right. by left.
      * apply submitted_by_app. by eapply Hclaim.
    + intros id who amount [Hin | [Hin | []]]%in_app_or; [| discriminate].
      apply submitted_by_app. by eapply Hpaid.
    + intros id c [[-> ->] | [_ Hc]]%lookup_written; [discriminate |].
      intros Hflag. apply rewards_paid_grows. by eapply Hrew.
    + intros id c [[-> ->] | [_ Hc]]%lookup_written; [discriminate |].
      intros Hflag. apply resolution_logged_app. by eapply Hres.
  - (* a claim is resolved *)
    apply claim_stored in Hex.
    unfold log_backs_claims.
    cbn [resolved_state claims events]. split_and!.
    + intros id c [[-> ->] | [_ Hc]]%lookup_written;
        cbn [claimer set_isResolved];
        apply submitted_by_app; by eapply Hclaim.
    + intros id who amount [Hin | [Hin | []]]%in_app_or; [| discriminate].
      apply submitted_by_app. by eapply Hpaid.
    + intros id c [[-> ->] | [_ Hc]]%lookup_written;
        cbn [isRewarded set_isResolved]; intros Hflag;
        apply rewards_paid_grows; by eapply Hrew.
    + intros id c [[-> ->] | [_ Hc]]%lookup_written; intros Hflag.
      * exists result. apply in_or_app. right. by left.
      * apply resolution_logged_app. by eapply Hres.
  - (* a claim is resolved and rewarded *)
    apply claim_stored in Hex.
    unfold log_backs_claims.
    cbn [rewarded_state claims events]. split_and!.
    + intros id c [[-> ->] | [_ Hc]]%lookup_written;
        cbn [claimer set_isResolved set_isRewarded];
        apply submitted_by_app; by eapply Hclaim.
    + intros id who amount [Hin | [Hin | [Hin | []]]]%in_app_or;
        [| discriminate |].
      * apply submitted_by_app. by eapply Hpaid.
      * apply (f_equal (fun e => match e with
                                 | RewardPaid i w _ => (i, w)
                                 | _ => (0, 0)
                                 end)) in Hin.
        injection Hin as <- <-.
        apply submitted_by_app. by eapply Hclaim.
    + intros id c [[-> ->] | [_ Hc]]%lookup_written; intros Hflag.
      * rewrite rewards_paid_app. unfold rewards_paid at 2.
        cbn [List.filter is_RewardPaid]. rewrite Z.eqb_refl.
        cbn [length]. lia.
      * apply rewards_paid_grows. by eapply Hrew.
    + intros id c [[-> ->] | [_ Hc]]%lookup_written; intros Hflag.
      * exists true. apply in_or_app. right. by left.
      * apply resolution_logged_app. by eapply Hres.
Qed.

Lemma run_log_backs_claims (o : O) steps :
  log_backs_claims (run steps (deployed o)).
Proof.
  apply (run_induction log_backs_claims (fun _ => True)).
  - intros st s0 _. apply step_log_backs_claims.
  - by apply Forall_forall.
  - unfold log_backs_claims, deployed. cbn [claims events].
    split_and!; intros *; rewrite ?lookup_empty; by intros ?.
Qed.

(** X12: rewards go to submitters only: in every state reached from
    deployment, each [RewardPaid] event for an identifier names an
    account from which the log holds a [ClaimSubmitted] event for the
    same identifier, and so does the claimer of every stored claim. *)
Theorem rewards_go_to_submitters (o : O) steps :
  let s := run steps (deployed o) in
  (forall id who amount, In (RewardPaid id who amount) (events s) ->
     submitted_by id who (events s)) /\
  (forall id c, claims s !! id = Some c ->
     submitted_by id (claimer c) (events s)).
Proof.
  destruct (run_log_backs_claims o steps) as (Hclaim & Hpaid & _ & _).
  by split.
Qed.

(** X13: the flags are backed by the log: in every state reached from
    deployment, a stored claim whose [isRewarded] flag is true has a
    [RewardPaid] event for its identifier in the log, and one whose
    [isResolved] flag is true has a [ClaimResolved] event. *)
Theorem flags_are_logged (o : O) steps :
  let s := run steps (deployed o) in
  (forall id c, claims s !! id = Some c -> isRewarded c = true ->
     (0 < rewards_paid id (events s))%nat) /\
  (forall id c, claims s !! id = Some c -> isResolved c = true ->
     resolution_logged id (events s)).
Proof.
  destruct (run_log_backs_claims o steps) as (_ & _ & Hrew & Hres).
  by split.
Qed.

(** ** The packed bytes *)

Lemma string_app_assoc (x y z : string) : (x +:+ y) +:+ z = x +:+ y +:+ z.
Proof.
  induction x as [| a x IH]; [reflexivity |].
  change (String a ((x +:+ y) +:+ z) = String a (x +:+ y +:+ z)).
  by rewrite IH.
Qed.

Lemma list_ascii_of_string_app (x y : string) :
  String.list_ascii_of_string (x +:+ y)
  = (String.list_ascii_of_string x ++ String.list_ascii_of_string y)%list.
Proof.
  induction x as [| a x IH]; [reflexivity |].
  change (a :: String.list_ascii_of_string (x +:+ y)
          = a :: (String.list_ascii_of_string x ++
                  String.list_ascii_of_string y)%list).
  by rewrite IH.
Qed.

Lemma string_length_app (x y : string) :
  String.length (x +:+ y) = (String.length x + String.length y)%nat.
Proof.
  induction x as [| a x IH]; [reflexivity |].
  change (S (String.length (x +:+ y))
          = S (String.length x + String.length y)).
  by rewrite IH.
Qed.

Lemma be_bytes_length n z : String.length (be_bytes n z) = n.
Proof.
  revert z. induction n as [| n IH]; intros z; [reflexivity |].
  cbn [be_bytes]. rewrite string_length_app, IH. cbn [String.length]. lia.
Qed.

Lemma be_value_snoc (x : string) (a : Ascii.ascii) :
  be_value (x +:+ String a EmptyString)
  = be_value x * 256 + Z.of_N (Ascii.N_of_ascii a).
Proof.
  unfold be_value. rewrite list_ascii_of_string_app, fold_left_app.
  reflexivity.
Qed.

(** Reading the [n] packed bytes of [z] gives [z] back up to [256 ^ n]. *)
Lemma be_value_be_bytes n z :
  0 <= z -> be_value (be_bytes n z) = z mod 256 ^ Z.of_nat n.
Proof.
  revert z. induction n as [| n IH]; intros z Hz.
  - change (256 ^ Z.of_nat 0) with 1. by rewrite Z.mod_1_r.
  - cbn [be_bytes]. rewrite be_value_snoc, IH by (apply Z.div_pos; lia).
    rewrite Ascii.N_ascii_embedding.
    + rewrite Z2N.id by (apply Z.mod_pos_bound; lia).
      rewrite Nat2Z.inj_succ, Z.pow_succ_r by lia.
      rewrite (Z.rem_mul_r z 256 (256 ^ Z.of_nat n)) by lia.
      lia.
    + assert (0 <= z mod 256 < 256) by (apply Z.mod_pos_bound; lia).
      lia.
Qed.

(** The packing of a [uint256] is 32 bytes long and loses nothing:
    reading the bytes of [abi.encodePacked(x)] back as a big-endian
    number gives [x]. *)
Lemma encodePacked_uint256_round_trip (x : uint256) :
  0 <= x < 2 ^ 256 ->
  String.length (encodePacked_uint256 x) = 32%nat /\
  be_value (encodePacked_uint256 x) = x.
Proof.
  intros Hx. unfold encodePacked_uint256. split.
  - apply be_bytes_length.
  - rewrite be_value_be_bytes by lia.
    replace (256 ^ Z.of_nat 32) with (2 ^ 256) by reflexivity.
    by apply Z.mod_small.
Qed.

(** X14: the block timestamp can be read back from the asserted bytes:
    the last 32 bytes of what [submitClaim] packs for a handle, a text
    and a timestamp hold that timestamp, so the bytes asserted for the
    same handle and text at two different times differ. *)
Theorem packedClaim_holds_timestamp handle text (t1 : uint256) :
  0 <= t1 < 2 ^ 256 ->
  timestamp_of (packedClaim handle text t1) = t1 /\
  (forall t2, 0 <= t2 < 2 ^ 256 ->
     packedClaim handle text t1 = packedClaim handle text t2 -> t1 = t2).
Proof.
  assert (forall t, 0 <= t < 2 ^ 256 ->
            timestamp_of (packedClaim handle text t) = t) as Hread.
  { intros t Ht. unfold timestamp_of, packedClaim.
    rewrite <- !string_app_assoc.
    set (front := (((("Twitter user @" +:+ handle) +:+
                     " posted a tweet with the exact text: '") +:+ text) +:+
                   "' as of timestamp ")).
    rewrite string_length_app.
    unfold encodePacked_uint256 at 1. rewrite be_bytes_length.
    replace (String.length front + 32 - 32)%nat with (String.length front)
      by lia.
    replace 32%nat with (String.length (encodePacked_uint256 t)) at 1
      by apply be_bytes_length.
    rewrite substring_skip.
    unfold encodePacked_uint256. rewrite be_value_be_bytes by lia.
    replace (256 ^ Z.of_nat 32) with (2 ^ 256) by reflexivity.
    by apply Z.mod_small. }
  intros H1. split; [by apply Hread |].
  intros t2 H2 Heq.
  rewrite <- (Hread t1 H1), <- (Hread t2 H2). by rewrite Heq.
Qed.

(** X15: the packed bytes do not tell the handle from the text: a text
    that contains the literal standing between handle and text can be
    split at it either way, so two different claims are asserted with
    the same bytes. *)
Theorem packedClaim_ambiguous (a b c : string) (t : uint256) :
  packedClaim a (b +:+ posted_fragment +:+ c) t
  = packedClaim (a +:+ posted_fragment +:+ b) c t /\
  (String.length a < String.length (a +:+ posted_fragment +:+ b))%nat.
Proof.
  split.
  - unfold packedClaim, posted_fragment. by rewrite !string_app_assoc.
  - rewrite !string_length_app. cbn [posted_fragment String.length]. lia.
Qed.

(** ** One reward per identifier *)

Lemma rewards_paid_snoc id (l : list Event) e :
  rewards_paid id (l ++ [e])
  = (rewards_paid id l + if is_RewardPaid id e then 1 else 0)%nat.
Proof.
  rewrite rewards_paid_app. unfold rewards_paid at 2.
  cbn [List.filter]. by destruct (is_RewardPaid id e).
Qed.

Lemma rewards_paid_pair id (l : list Event) e e' :
  rewards_paid id (l ++ [e; e'])
  = (rewards_paid id l + (if is_RewardPaid id e then 1 else 0)
     + if is_RewardPaid id e' then 1 else 0)%nat.
Proof.
  change (l ++ [e; e'])%list with (l ++ ([e] ++ [e']))%list.
  by rewrite app_assoc, !rewards_paid_snoc.
Qed.

Lemma deployed_paid_once (o : O) id : paid_once (deployed o) id.
Proof.
  unfold paid_once, deployed. cbn [claims events].
  unfold rewards_paid. cbn [List.filter length]. split_and!; lia.
Qed.

Lemma step_paid_once st s :
  fresh_identifier st s ->
  (forall id, paid_once s id) -> forall id, paid_once (step st s) id.
Proof.
  intros Hfresh Hs id. destruct (Hs id) as (Hnone & Hone & Hflag).
  destruct (step_effect st s)
    as [st _ | o' | ctx value | ctx handle text id0 o' Ho
        | ctx id0 result o' _ _ _ | ctx id0 o' _ _ Hnot _ _];
    try (by repeat split).
  - (* a claim is stored *)
    assert (claims s !! id0 = None) as Hnew.
    { cbn [fresh_identifier] in Hfresh. eapply Hfresh.
      rewrite submit_paths, Ho. reflexivity. }
    unfold paid_once. cbn [submitted_state events claims].
    rewrite rewards_paid_snoc. cbn [is_RewardPaid]. rewrite Nat.add_0_r.
    destruct (decide (id0 = id)) as [-> | Hne].
    + specialize (Hnone Hnew). split_and!; [| lia | lia].
      rewrite lookup_insert_eq. discriminate.
    + split_and!; [| done |].
      * by rewrite lookup_insert_ne.
      * by rewrite claim_at_submitted_ne.
  - (* a claim is resolved *)
    unfold paid_once. cbn [resolved_state events claims].
    rewrite rewards_paid_snoc. cbn [is_RewardPaid]. rewrite Nat.add_0_r.
    destruct (decide (id0 = id)) as [-> | Hne].
    + split_and!; [| done |].
      * rewrite lookup_insert_eq. discriminate.
      * by rewrite claim_at_resolved_state.
    + split_and!; [| done |].
      * by rewrite lookup_insert_ne.
      * by rewrite claim_at_resolved_ne.
  - (* a claim is resolved and rewarded *)
    unfold paid_once. cbn [rewarded_state events claims].
    rewrite rewards_paid_pair. cbn [is_RewardPaid].
    destruct (decide (id0 = id)) as [-> | Hne].
    + rewrite Z.eqb_refl.
      assert (rewards_paid id (events s) = 0%nat) as Hzero.
      { destruct (rewards_paid id (events s)) as [| n] eqn:Hn; [done |].
        rewrite Hflag in Hnot by lia. discriminate. }
      rewrite Hzero. split_and!; [| lia |].
      * rewrite lookup_insert_eq. discriminate.
      * intros _. by rewrite claim_at_rewarded_state.
    + apply Z.eqb_neq in Hne as Hneb. rewrite Hneb.
      rewrite !Nat.add_0_r. split_and!; [| done |].
      * by rewrite lookup_insert_ne.
      * by rewrite claim_at_rewarded_ne.
Qed.

Lemma run_paid_once steps s :
  fresh_identifiers steps s ->
  (forall id, paid_once s id) -> forall id, paid_once (run steps s) id.
Proof.
  revert s. induction steps as [| st rest IH]; intros s Hfresh Hs; [done |].
  destruct Hfresh as [Hst Hrest].
  cbn [run fold_left]. fold (run rest (step st s)).
  apply IH; [exact Hrest | by apply step_paid_once].
Qed.

(** C2: in every state reached from deployment, whatever the oracle, as
    long as it hands out a fresh identifier for every claim it accepts,
    at most one [RewardPaid] has been logged for each identifier; and
    once one has been logged for [id], a further
    [settleAndGetAssertionResult] of [id], whoever calls it and whatever
    the oracle answers, logs no [RewardPaid], sends nothing and leaves
    the balance as it is. *)
Theorem reward_paid_at_most_once (o : O) steps id :
  fresh_identifiers steps (deployed o) ->
  let s := run steps (deployed o) in
  (rewards_paid id (events s) <= 1)%nat /\
  ((0 < rewards_paid id (events s))%nat ->
   forall ctx,
     let s' := after (settleAndGetAssertionResult ctx id) s in
     rewards_paid id (events s') = rewards_paid id (events s) /\
     sent s' = sent s /\ balance s' = balance s).
Proof.
  intros Hfresh s.
  destruct (run_paid_once steps (deployed o) Hfresh (deployed_paid_once o) id)
    as (_ & Hone & Hflag).
  split; [exact Hone |].
  intros Hpaid ctx.
  by destruct (settle_rewarded_no_payment ctx id s (Hflag Hpaid))
    as (_ & Hlog & Hsent & Hbal).
Qed.

End RegistryLedger.

(** ** The sample claim, further *)

Lemma reward_paid_at_most_once_witness :
  let s := run [Invoke (Sample.call_at 1699999000 true)
                       (Call_receive (ether / 100));
                Invoke (Sample.call_at 1700000000 true)
                       (Call_submitClaim Sample.handle Sample.text);
                Invoke (Sample.call_at 1700007201 true)
                       (Call_settleAndGetAssertionResult 7)]
               (deployed Sample.upholding) in
  (rewards_paid 7%Z (events s) <= 1)%nat /\
  ((0 < rewards_paid 7%Z (events s))%nat ->
   forall ctx,
     let s' := after (settleAndGetAssertionResult ctx 7) s in
     rewards_paid 7 (events s') = rewards_paid 7 (events s) /\
     sent s' = sent s /\ balance s' = balance s).
Proof.
  apply (reward_paid_at_most_once Sample.upholding
           [Invoke (Sample.call_at 1699999000 true)
                   (Call_receive (ether / 100));
            Invoke (Sample.call_at 1700000000 true)
                   (Call_submitClaim Sample.handle Sample.text);
            Invoke (Sample.call_at 1700007201 true)
                   (Call_settleAndGetAssertionResult 7)]
           7).
  cbn [fresh_identifiers fresh_identifier]. split_and!; [done | | done..].
  intros id s' _. vm_compute. reflexivity.
Defined.

Lemma submitClaim_frame_witness :
  let ctx := Sample.call_at 1700000000 true in
  let s := Sample.funded Sample.upholding in
  let s' := Sample.pending Sample.upholding in
  (forall id', id' <> 7 -> claims s' !! id' = claims s !! id') /\
  balance s' = balance s /\
  sent s' = sent s /\
  events s' =
    (events s ++ [ClaimSubmitted 7 Sample.alice Sample.handle Sample.text])%list.
Proof.
  apply (submitClaim_frame (Sample.call_at 1700000000 true)
           Sample.handle Sample.text (Sample.funded Sample.upholding) 7).
  vm_compute. reflexivity.
Defined.

Lemma oracle_refusal_propagates_witness :
  let ctx := Sample.call_at 1700000001 true in
  let s := Sample.pending Sample.upholding in
  transact (settleAndGetAssertionResult ctx 7) s
  = (s, Reverted "Assertion not expired").
Proof.
  apply (proj2 (oracle_refusal_propagates
                  (Sample.call_at 1700000001 true)
                  (Sample.pending Sample.upholding)
                  "Assertion not expired") 7).
  - vm_compute. discriminate.
  - vm_compute. reflexivity.
Defined.

Lemma settle_frame_witness :
  let s := Sample.pending Sample.rejecting in
  let s' := after (settleAndGetAssertionResult
                     (Sample.call_at 1700007201 true) 7) s in
  (forall id', id' <> 7 -> claims s' !! id' = claims s !! id') /\
  claimer (claim_at s' 7) = claimer (claim_at s 7) /\
  twitterHandle (claim_at s' 7) = twitterHandle (claim_at s 7) /\
  tweetText (claim_at s' 7) = tweetText (claim_at s 7) /\
  assertedClaim (claim_at s' 7) = assertedClaim (claim_at s 7) /\
  assertionId (claim_at s' 7) = assertionId (claim_at s 7) /\
  (isRewarded (claim_at s 7) = true -> isRewarded (claim_at s' 7) = true).
Proof.
  apply (settle_frame (Sample.call_at 1700007201 true) 7
           (Sample.pending Sample.rejecting) false).
  vm_compute. reflexivity.
Defined.

Lemma submitted_claim_reads_back_witness :
  let s' := Sample.pending Sample.upholding in
  getClaimDetails 7 s'
  = Success ((Sample.alice, Sample.handle, Sample.text, false, false), s') /\
  isClaimVerified 7 s' = Success (false, s').
Proof.
  apply (submitted_claim_reads_back (Sample.call_at 1700000000 true)
           Sample.handle Sample.text (Sample.funded Sample.upholding) 7).
  vm_compute. reflexivity.
Defined.

Lemma verified_iff_upheld_witness :
  isClaimVerified 7 (Sample.settled Sample.upholding)
  = Success (true, Sample.settled Sample.upholding) /\
  isClaimVerified 7 (Sample.settled Sample.rejecting)
  = Success (false, Sample.settled Sample.rejecting).
Proof.
  split.
  - apply (verified_iff_upheld (Sample.call_at 1700007201 true) 7
             (Sample.pending Sample.upholding)).
    + vm_compute. reflexivity.
    + vm_compute. reflexivity.
  - apply (verified_iff_upheld (Sample.call_at 1700007201 true) 7
             (Sample.pending Sample.rejecting)).
    + vm_compute. reflexivity.
    + vm_compute. reflexivity.
Defined.

Lemma unknown_claim_reads_witness :
  let ctx := Sample.call_at 1700007201 true in
  let s := Sample.pending Sample.upholding in
  getClaimDetails 8 s
  = Success ((address_zero, EmptyString, EmptyString, false, false), s) /\
  isClaimVerified 8 s = Success (false, s) /\
  canBeSettled ctx 8 s = Success (false, s).
Proof.
  apply (unknown_claim_reads (Sample.call_at 1700007201 true) 8
           (Sample.pending Sample.upholding)).
  - intros id. destruct (decide (7 = id)) as [<- | Hne].
    + eapply claim_invariant_written.
      * vm_compute. reflexivity.
      * vm_compute. discriminate.
      * discriminate.
    + eapply (claim_invariant_elsewhere (deployed Sample.upholding));
        [reflexivity | exact Hne |].
      unfold claim_invariant, deployed. cbn [claims].
      rewrite lookup_empty. split; [| discriminate].
      split; [by intros [? ?] | by intros []].
  - vm_compute. reflexivity.
Defined.

Lemma claim_only_grows_witness :
  let s := Sample.pending Sample.upholding in
  let s' := run [Invoke (Sample.call_at 1700007201 true)
                        (Call_settleAndGetAssertionResult 7)] s in
  claimer (claim_at s' 7) = claimer (claim_at s 7) /\
  twitterHandle (claim_at s' 7) = twitterHandle (claim_at s 7) /\
  tweetText (claim_at s' 7) = tweetText (claim_at s 7) /\
  assertedClaim (claim_at s' 7) = assertedClaim (claim_at s 7) /\
  assertionId (claim_at s' 7) = assertionId (claim_at s 7) /\
  (isResolved (claim_at s 7) = true -> isResolved (claim_at s' 7) = true) /\
  (isRewarded (claim_at s 7) = true -> isRewarded (claim_at s' 7) = true).
Proof.
  apply (claim_only_grows 7
           [Invoke (Sample.call_at 1700007201 true)
                   (Call_settleAndGetAssertionResult 7)]
           (Sample.pending Sample.upholding)).
  cbn [never_stores_under stores_under]. tauto.
Defined.

Lemma settled_claim_not_settleable_witness :
  let s2 := run [Invoke (Sample.call_at 1700007300 true) (Call_receive 5)]
                (Sample.settled Sample.rejecting) in
  canBeSettled (Sample.call_at 1700007400 true) 7 s2 = Success (false, s2).
Proof.
  apply (settled_claim_not_settleable (Sample.call_at 1700007201 true) 7
           (Sample.pending Sample.rejecting) false).
  - vm_compute. reflexivity.
  - cbn [never_stores_under stores_under]. tauto.
Defined.

Lemma never_overdrawn_witness :
  let steps :=
    [Invoke (Sample.call_at 1700000000 true)
            (Call_submitClaim Sample.handle Sample.text);
     Invoke (Sample.call_at 1700007201 true)
            (Call_settleAndGetAssertionResult 7)] in
  let s := deployed_and_funded Sample.upholding in
  0 <= balance (run steps s) /\
  REWARD_AMOUNT *
    (Z.of_nat (length (sent (run steps s))) - Z.of_nat (length (sent s)))
  <= balance s + deposits steps.
Proof.
  apply (never_overdrawn
           [Invoke (Sample.call_at 1700000000 true)
                   (Call_submitClaim Sample.handle Sample.text);
            Invoke (Sample.call_at 1700007201 true)
                   (Call_settleAndGetAssertionResult 7)]
           (deployed_and_funded Sample.upholding)).
  - vm_compute. discriminate.
  - repeat constructor; vm_compute; discriminate.
Defined.

Lemma rewards_go_to_submitters_witness :
  submitted_by 7 Sample.alice
    (events (run [Invoke (Sample.call_at 1700000000 true)
                         (Call_receive ether);
                  Invoke (Sample.call_at 1700000000 true)
                         (Call_submitClaim Sample.handle Sample.text);
                  Invoke (Sample.call_at 1700007201 true)
                         (Call_settleAndGetAssertionResult 7)]
                 (deployed Sample.upholding))).
Proof.
  apply (proj1 (rewards_go_to_submitters Sample.upholding
                  [Invoke (Sample.call_at 1700000000 true)
                          (Call_receive ether);
                   Invoke (Sample.call_at 1700000000 true)
                          (Call_submitClaim Sample.handle Sample.text);
                   Invoke (Sample.call_at 1700007201 true)
                          (Call_settleAndGetAssertionResult 7)])
               7 Sample.alice REWARD_AMOUNT).
  vm_compute. right. right. left. reflexivity.
Defined.

Lemma flags_are_logged_witness :
  (0 < rewards_paid 7%Z
         (events (run [Invoke (Sample.call_at 1700000000%Z true)
                              (Call_receive ether);
                       Invoke (Sample.call_at 1700000000%Z true)
                              (Call_submitClaim Sample.handle Sample.text);
                       Invoke (Sample.call_at 1700007201%Z true)
                              (Call_settleAndGetAssertionResult 7%Z)]
                      (deployed Sample.upholding))))%nat.
Proof.
  eapply (proj1 (flags_are_logged Sample.upholding
                   [Invoke (Sample.call_at 1700000000 true)
                           (Call_receive ether);
                    Invoke (Sample.call_at 1700000000 true)
                           (Call_submitClaim Sample.handle Sample.text);
                    Invoke (Sample.call_at 1700007201 true)
                           (Call_settleAndGetAssertionResult 7)]) 7).
  - vm_compute. reflexivity.
  - reflexivity.
Defined.

Lemma packedClaim_holds_timestamp_witness :
  timestamp_of (assertedClaim (claim_at (Sample.pending Sample.upholding) 7))
  = 1700000000.
Proof.
  refine (proj1 (packedClaim_holds_timestamp
                   Sample.handle Sample.text 1700000000 _)).
  vm_compute. split; [discriminate | reflexivity].
Defined.

Lemma encodePacked_uint256_round_trip_witness :
  String.length (encodePacked_uint256 1700000000) = 32%nat /\
  be_value (encodePacked_uint256 1700000000) = 1700000000.
Proof.
  apply (encodePacked_uint256_round_trip 1700000000).
  vm_compute. split; [discriminate | reflexivity].
Defined.

(** * Properties of the client's other actions *)

Module PagesFacts.
Import Client Pages.

(** A handle typed with a leading [@] is cleaned of it. *)
Lemma cleanHandle_at (h : string) : cleanHandle ("@" +:+ h) = h.
Proof.
  unfold cleanHandle.
  change ("@" +:+ h) with (String (Ascii.ascii_of_nat 64) h).
  cbn [String.prefix String.length String.substring Nat.sub].
  destruct (Ascii.ascii_dec _ _) as [_ | Hne]; [| by destruct Hne].
  replace (String.prefix EmptyString h) with true by (by destruct h).
  rewrite Nat.sub_0_r. apply substring_all.
Qed.

(** The first loop, one log at a time. *)
Lemma scan_ClaimSubmitted_cons b log rest :
  scan_ClaimSubmitted b (log :: rest) =
    match claim_submitted_id b log with
    | Some id => Some id
    | None => scan_ClaimSubmitted b rest
    end.
Proof.
  cbn [scan_ClaimSubmitted]. unfold claim_submitted_id.
  destruct (parseLog b log) as [parsed |]; [| reflexivity].
  by destruct (String.eqb (name parsed) "ClaimSubmitted").
Qed.

Lemma scan_ClaimSubmitted_none b logs :
  Forall (fun log => claim_submitted_id b log = None) logs ->
  scan_ClaimSubmitted b logs = None.
Proof.
  induction 1 as [| log rest Hlog _ IH]; [reflexivity |].
  by rewrite scan_ClaimSubmitted_cons, Hlog.
Qed.

Lemma scan_ClaimSubmitted_app b before log rest id :
  Forall (fun l => claim_submitted_id b l = None) before ->
  claim_submitted_id b log = Some id ->
  scan_ClaimSubmitted b (before ++ log :: rest) = Some id.
Proof.
  intros Hbefore Hlog.
  induction Hbefore as [| l before Hl _ IH].
  - rewrite app_nil_l, scan_ClaimSubmitted_cons. by rewrite Hlog.
  - rewrite <- app_comm_cons, scan_ClaimSubmitted_cons. by rewrite Hl.
Qed.

Lemma scan_ClaimSubmitted_some b logs id :
  scan_ClaimSubmitted b logs = Some id ->
  exists log, In log logs /\ claim_submitted_id b log = Some id.
Proof.
  induction logs as [| log rest IH]; [discriminate |].
  rewrite scan_ClaimSubmitted_cons.
  destruct (claim_submitted_id b log) as [id' |] eqn:Hlog.
  - intros [= ->]. exists log. by split; [left |].
  - intros Hscan. destruct (IH Hscan) as (l & Hin & Hl).
    exists l. by split; [right |].
Qed.

Lemma scan_ClaimSubmitted_none_inv b logs :
  scan_ClaimSubmitted b logs = None ->
  Forall (fun log => claim_submitted_id b log = None) logs.
Proof.
  induction logs as [| log rest IH]; [constructor |].
  rewrite scan_ClaimSubmitted_cons.
  destruct (claim_submitted_id b log) as [id' |] eqn:Hlog; [discriminate |].
  intros Hscan. constructor; [exact Hlog | by apply IH].
Qed.

Lemma scan_AssertionMade_some b logs topic :
  scan_AssertionMade b logs = Some topic ->
  exists log, In log logs /\ is_AssertionMade b log = true /\
              nth_error (topics log) 1 = topic.
Proof.
  induction logs as [| log rest IH]; [discriminate |].
  cbn [scan_AssertionMade].
  destruct (is_AssertionMade b log) eqn:Hlog.
  - intros [= <-]. exists log. by split; [left |].
  - intros Hscan. destruct (IH Hscan) as (l & Hin & Hl).
    exists l. by split; [right |].
Qed.

Lemma scan_AssertionMade_none b logs :
  Forall (fun log => is_AssertionMade b log = false) logs ->
  scan_AssertionMade b logs = None.
Proof.
  induction 1 as [| log rest Hlog _ IH]; [reflexivity |].
  cbn [scan_AssertionMade]. by rewrite Hlog.
Qed.

(** X16: the registry's own event wins: when a log of the receipt parses
    as [ClaimSubmitted] and none before it does, the identifier
    recovered is the one of that log, whatever [AssertionMade] logs of
    the oracle stand before or after it. *)
Theorem receipt_prefers_ClaimSubmitted b before log rest id :
  Forall (fun l => claim_submitted_id b l = None) before ->
  claim_submitted_id b log = Some id ->
  findAssertionIdFromReceipt b (before ++ log :: rest) = Some id.
Proof.
  intros Hbefore Hlog. unfold findAssertionIdFromReceipt.
  by rewrite (scan_ClaimSubmitted_app b before log rest id Hbefore Hlog).
Qed.

(** X17: an identifier recovered from a receipt is read off one of its
    logs: a log that parses as [ClaimSubmitted], or, when no log does,
    the second topic of a log whose first topic is the [AssertionMade]
    hash; and a receipt with no log of either kind gives none. *)
Theorem receipt_id_comes_from_a_log b logs :
  (forall id,
     findAssertionIdFromReceipt b logs = Some id ->
     (exists log, In log logs /\ claim_submitted_id b log = Some id) \/
     (Forall (fun l => claim_submitted_id b l = None) logs /\
      exists log, In log logs /\ is_AssertionMade b log = true /\
                  nth_error (topics log) 1 = Some id)) /\
  (Forall (fun l => claim_submitted_id b l = None) logs ->
   Forall (fun l => is_AssertionMade b l = false) logs ->
   findAssertionIdFromReceipt b logs = None).
Proof.
  split.
  - intros id. unfold findAssertionIdFromReceipt.
    destruct (scan_ClaimSubmitted b logs) as [id' |] eqn:Hfirst.
    + intros [= ->]. left. by apply scan_ClaimSubmitted_some.
    + destruct (scan_AssertionMade b logs) as [topic |] eqn:Hsecond;
        [| discriminate].
      intros ->. right. split.
      * by apply scan_ClaimSubmitted_none_inv.
      * by apply scan_AssertionMade_some.
  - intros Hfirst Hsecond. unfold findAssertionIdFromReceipt.
    by rewrite scan_ClaimSubmitted_none, scan_AssertionMade_none.
Qed.

(** ** Submitting from the page *)

(** X18: with the handle or the text left empty, [submitClaim] of the
    client sends no transaction, whatever the browser: it shows the
    request for both fields, clears the result, and leaves the loading
    flag, the wallet flag, the transaction hash and the identifier as
    they were. *)
Theorem submit_needs_both_fields b p :
  truthy (twitterHandle p) = false \/ truthy (tweetText p) = false ->
  snd (submitClaim b p) = [] /\
  error (app (fst (submitClaim b p)))
  = "Please enter both Twitter handle and tweet text" /\
  result (fst (submitClaim b p)) = None /\
  loading (app (fst (submitClaim b p))) = loading (app p) /\
  walletConnected (fst (submitClaim b p)) = walletConnected p /\
  txHash (fst (submitClaim b p)) = txHash p /\
  assertionId (app (fst (submitClaim b p))) = assertionId (app p).
Proof.
  intros Hempty. unfold submitClaim. cbn [setResult on_app twitterHandle tweetText].
  assert (negb (truthy (twitterHandle p)) || negb (truthy (tweetText p))
          = true) as ->.
  { destruct Hempty as [-> | ->]; [done | apply orb_true_r]. }
  by repeat split.
Qed.

(** What the [try] block sends. *)
Lemma submitClaim_try_sends b p :
  window_ethereum (world b) = true ->
  snd (submitClaim_try b p)
  = [Send_submitClaim (cleanHandle (twitterHandle p)) (tweetText p)].
Proof.
  intros Hw. unfold submitClaim_try. rewrite Hw.
  destruct (send_submitClaim b _ _) as [hash | err]; [| done].
  destruct (wait b hash) as [logs | err]; [| done].
  destruct (findAssertionIdFromReceipt b logs) as [id |]; [| done].
  by destruct (truthy id).
Qed.

Lemma submitClaim_body_sends b p :
  snd (submitClaim_body b p) = [] \/
  snd (submitClaim_body b p)
  = [Send_submitClaim (cleanHandle (twitterHandle p)) (tweetText p)].
Proof.
  unfold submitClaim_body. cbn zeta.
  destruct (window_ethereum (world b)) eqn:Hw.
  - right.
    pose proof (submitClaim_try_sends b (on_app (setLoading true) p) Hw)
      as Hsent.
    destruct (submitClaim_try b _) as [[p' [err |]] sent];
      cbn [snd] in *; exact Hsent.
  - left. unfold submitClaim_try. by rewrite Hw.
Qed.

(** [connectWallet] leaves the form and the status panel alone. *)
Lemma connectWallet_keeps_form b p :
  twitterHandle (fst (connectWallet b p)) = twitterHandle p /\
  tweetText (fst (connectWallet b p)) = tweetText p /\
  assertionId (app (fst (connectWallet b p))) = assertionId (app p) /\
  canSettle (app (fst (connectWallet b p))) = canSettle (app p) /\
  loading (app (fst (connectWallet b p))) = loading (app p) /\
  txHash (fst (connectWallet b p)) = txHash p /\
  result (fst (connectWallet b p)) = result p.
Proof.
  unfold connectWallet.
  destruct (window_ethereum (world b)); [| done].
  destruct (request_accounts b); [| done].
  destruct (getNetwork b) as [chainId |]; [| done].
  destruct (negb (chainId =? SEPOLIA)); [done |].
  by destruct (getBalance b).
Qed.

(** X19: the handle goes out without its leading [@], and the check for
    an empty handle comes before the [@] is taken off: with the wallet
    connected and a text given, a handle typed as [@] followed by [h]
    sends exactly one [submitClaim] transaction, for the handle [h] and
    the text as typed, also when [h] is empty. *)
Theorem submit_sends_clean_handle b p h :
  twitterHandle p = "@" +:+ h ->
  truthy (tweetText p) = true ->
  walletConnected p = true ->
  window_ethereum (world b) = true ->
  snd (submitClaim b p) = [Send_submitClaim h (tweetText p)].
Proof.
  intros Hh Ht Hc Hw. unfold submitClaim.
  cbn [setResult on_app twitterHandle tweetText walletConnected].
  rewrite Hh, Ht, Hc. cbn [negb orb].
  change (truthy ("@" +:+ h)) with true. cbn [negb orb].
  unfold submitClaim_body. cbn zeta.
  pose proof (submitClaim_try_sends b
    (on_app (setLoading true)
       (setResult None (on_app (setError EmptyString) p))) Hw) as Hsent.
  cbn [setResult on_app twitterHandle tweetText] in Hsent.
  rewrite Hh, cleanHandle_at in Hsent.
  destruct (submitClaim_try b _) as [[p' [err |]] sent];
    cbn [snd] in *; exact Hsent.
Qed.

(** X20: [submitClaim] of the client sends at most one transaction, and
    only for a form with both fields filled in: what it sends is nothing,
    or the one [submitClaim] for the cleaned handle and the text. *)
Theorem submit_sends_at_most_once b p :
  snd (submitClaim b p) = [] \/
  (snd (submitClaim b p)
   = [Send_submitClaim (cleanHandle (twitterHandle p)) (tweetText p)] /\
   truthy (twitterHandle p) = true /\ truthy (tweetText p) = true).
Proof.
  unfold submitClaim.
  cbn [setResult on_app twitterHandle tweetText walletConnected].
  destruct (truthy (twitterHandle p)); [| by left].
  destruct (truthy (tweetText p)); [| by left].
  cbn [negb orb].
  set (p0 := setResult None (on_app (setError EmptyString) p)).
  destruct (walletConnected p); cbn [negb].
  - destruct (submitClaim_body_sends b p0) as [-> | ->]; auto.
  - destruct (connectWallet_keeps_form b p0) as (H1 & H2 & _).
    destruct (connectWallet b p0) as [q connected]. cbn [fst] in *.
    destruct connected; cbn [negb]; [| by left].
    destruct (submitClaim_body_sends b q) as [-> | ->]; [by left |].
    right. by rewrite H1, H2.
Qed.

(** X21: with the form filled in, the wallet connected and the provider
    there, when the transaction is sent and mined and the receipt gives
    the identifier [id], the page ends with [id] as assertion id, the
    hash of the transaction, the result [Claim processed] carrying both,
    no error and the loading flag cleared. *)
Theorem submit_recovers_id b p hash logs id :
  truthy (twitterHandle p) = true ->
  truthy (tweetText p) = true ->
  walletConnected p = true ->
  window_ethereum (world b) = true ->
  send_submitClaim b (cleanHandle (twitterHandle p)) (tweetText p)
  = Resolved hash ->
  wait b hash = Resolved logs ->
  findAssertionIdFromReceipt b logs = Some id ->
  truthy id = true ->
  assertionId (app (fst (submitClaim b p))) = id /\
  txHash (fst (submitClaim b p)) = hash /\
  result (fst (submitClaim b p)) = Some (claim_processed hash id) /\
  error (app (fst (submitClaim b p))) = EmptyString /\
  loading (app (fst (submitClaim b p))) = false.
Proof.
  intros Hh Ht Hc Hw Hsend Hwait Hfind Hid.
  unfold submitClaim.
  cbn [setResult on_app twitterHandle tweetText walletConnected].
  rewrite Hh, Ht, Hc. cbn [negb orb].
  unfold submitClaim_body, submitClaim_try. cbn zeta.
  cbn [setResult on_app twitterHandle tweetText world].
  rewrite Hw, Hsend, Hwait, Hfind, Hid.
  by repeat split.
Qed.

(** X22: a transaction that was sent and then fails to be mined leaves
    its traces: the page keeps the hash and the result [Claim submitted]
    set before the wait, beside the error taken from the failure, with
    the loading flag cleared and the assertion id as it was; a
    transaction the wallet refuses to send leaves no result and the hash
    as it was. *)
Theorem submit_failure_surfaces b p err :
  truthy (twitterHandle p) = true ->
  truthy (tweetText p) = true ->
  walletConnected p = true ->
  window_ethereum (world b) = true ->
  (forall hash,
     send_submitClaim b (cleanHandle (twitterHandle p)) (tweetText p)
     = Resolved hash ->
     wait b hash = Thrown err ->
     txHash (fst (submitClaim b p)) = hash /\
     result (fst (submitClaim b p)) = Some (claim_submitted hash) /\
     error (app (fst (submitClaim b p)))
     = "Error submitting claim: " +:+ errorMessage err /\
     loading (app (fst (submitClaim b p))) = false /\
     assertionId (app (fst (submitClaim b p))) = assertionId (app p)) /\
  (send_submitClaim b (cleanHandle (twitterHandle p)) (tweetText p)
   = Thrown err ->
   txHash (fst (submitClaim b p)) = txHash p /\
   result (fst (submitClaim b p)) = None /\
   error (app (fst (submitClaim b p)))
   = "Error submitting claim: " +:+ errorMessage err /\
   loading (app (fst (submitClaim b p))) = false /\
   assertionId (app (fst (submitClaim b p))) = assertionId (app p)).
Proof.
  intros Hh Ht Hc Hw.
  unfold submitClaim.
  cbn [setResult on_app twitterHandle tweetText walletConnected].
  rewrite Hh, Ht, Hc. cbn [negb orb].
  unfold submitClaim_body, submitClaim_try. cbn zeta.
  cbn [setResult on_app twitterHandle tweetText world].
  rewrite Hw. split.
  - intros hash -> ->. by repeat split.
  - intros ->. by repeat split.
Qed.

(** ** Settling from the page *)

(** X23: the settle action does not look at the settleability flag: with
    an identifier typed, the wallet connected and the provider there, it
    sends exactly one settlement transaction for that identifier,
    whatever [canSettle] is. *)
Theorem settle_ignores_canSettle b p flag :
  truthy (assertionId (app p)) = true ->
  walletConnected p = true ->
  window_ethereum (world b) = true ->
  snd (settleClaim b (on_app (setCanSettle flag) p))
  = [Send_settleAndGetAssertionResult (assertionId (app p))].
Proof.
  intros Hid Hc Hw. unfold settleClaim.
  cbn [on_app setCanSettle app assertionId walletConnected].
  rewrite Hid, Hc. cbn [negb].
  unfold settleClaim_body, settleClaim_try. cbn zeta.
  cbn [on_app setError setLoading setCanSettle app assertionId world].
  rewrite Hw.
  destruct (send_settle b _) as [hash | err]; [| done].
  by destruct (wait b hash).
Qed.

(** X24: a settlement that the wallet refuses to send, or that fails to
    be mined, is reported by what the message of the failure holds: the hint to wait when it includes
    [challenge period], and otherwise, unless it includes
    [already resolved], the message itself after the words
    [Error settling claim]; in both cases the loading flag is cleared. *)
Theorem settle_failure_is_classified b p err :
  truthy (assertionId (app p)) = true ->
  walletConnected p = true ->
  window_ethereum (world b) = true ->
  send_settle b (assertionId (app p)) = Thrown err \/
  (exists hash, send_settle b (assertionId (app p)) = Resolved hash /\
                wait b hash = Thrown err) ->
  (message_includes "challenge period" err = true ->
   error (app (fst (settleClaim b p))) = not_yet_message /\
   loading (app (fst (settleClaim b p))) = false) /\
  (message_includes "challenge period" err = false ->
   message_includes "already resolved" err = false ->
   error (app (fst (settleClaim b p)))
   = "Error settling claim: " +:+ shown (message err) /\
   loading (app (fst (settleClaim b p))) = false).
Proof.
  intros Hid Hc Hw Hfails. unfold settleClaim.
  rewrite Hid, Hc. cbn [negb].
  unfold settleClaim_body, settleClaim_try. cbn zeta.
  cbn [on_app setError setLoading app assertionId world].
  rewrite Hw. unfold settleClaim_catch.
  destruct Hfails as [-> | (hash & -> & ->)]; cbn [fst];
    (split; [intros -> | intros -> ->]; by split).
Qed.

(** The error the status check leaves when an identifier is there. *)
Lemma checkClaimStatus_error w idToCheck st :
  truthy (idToUse idToCheck st) = true ->
  error (checkClaimStatus w idToCheck st) = EmptyString \/
  exists m,
    error (checkClaimStatus w idToCheck st) = "Error checking claim: " +:+ m.
Proof.
  intros Hid. unfold checkClaimStatus. rewrite Hid. cbn [negb].
  destruct (window_ethereum w); [| right; by eexists].
  destruct (Client.getClaimDetails w _) as [details | m];
    [| right; by eexists].
  left. unfold readAssertion.
  destruct (Client.getAssertion w _) as [a | m]; [| done].
  by destruct (Client.canBeSettled w _).
Qed.

(** X25: the notice that the claim was already resolved does not stay:
    when the message of a failed settlement includes [already resolved] and not
    [challenge period], the status is checked again after the notice is
    set, and the page ends with the error of that check (none, or
    [Error checking claim] and a message), never with the notice. *)
Theorem already_resolved_notice_is_overwritten b p err :
  truthy (assertionId (app p)) = true ->
  walletConnected p = true ->
  window_ethereum (world b) = true ->
  send_settle b (assertionId (app p)) = Thrown err \/
  (exists hash, send_settle b (assertionId (app p)) = Resolved hash /\
                wait b hash = Thrown err) ->
  message_includes "challenge period" err = false ->
  message_includes "already resolved" err = true ->
  error (app (fst (settleClaim b p))) <> already_resolved_message /\
  (error (app (fst (settleClaim b p))) = EmptyString \/
   exists m, error (app (fst (settleClaim b p)))
             = "Error checking claim: " +:+ m).
Proof.
  intros Hid Hc Hw Hfails Hnot Hres. unfold settleClaim.
  rewrite Hid, Hc. cbn [negb].
  unfold settleClaim_body, settleClaim_try. cbn zeta.
  cbn [on_app setError setLoading app assertionId world].
  rewrite Hw. unfold settleClaim_catch.
  destruct Hfails as [-> | (hash & -> & ->)];
    cbn [fst]; rewrite Hnot, Hres;
    cbn [fst on_app setResult app setLoading error];
    match goal with
    | |- context [checkClaimStatus ?w None ?st] =>
        destruct (checkClaimStatus_error w None st Hid) as [-> | [m ->]]
    end;
    (split; [discriminate | (by left) || (right; by eexists)]).
Qed.

(** ** Connecting the wallet *)

(** X26: [connectWallet] returns true exactly when the wallet is there,
    grants the accounts, is on Sepolia and the registry's balance can be
    read; the wallet flag is set as soon as the network is right, so a
    failing balance read returns false with the flag already true. *)
Theorem connectWallet_outcome b p :
  (snd (connectWallet b p) = true <->
     window_ethereum (world b) = true /\
     (exists u, request_accounts b = Resolved u) /\
     getNetwork b = Resolved SEPOLIA /\
     (exists wei, getBalance b = Resolved wei)) /\
  (walletConnected (fst (connectWallet b p)) = true <->
     walletConnected p = true \/
     (window_ethereum (world b) = true /\
      (exists u, request_accounts b = Resolved u) /\
      getNetwork b = Resolved SEPOLIA)).
Proof.
  unfold connectWallet.
  destruct (window_ethereum (world b)).
  2: { cbn [fst snd on_app walletConnected]. split; split;
       [done | by intros [? _] | by left | by intros [? | [? _]]]. }
  destruct (request_accounts b) as [u | err].
  2: { cbn [fst snd on_app walletConnected]. split; split;
       [done | by intros (_ & [? ?] & _) | by left
        | by intros [? | (_ & [? ?] & _)]]. }
  destruct (getNetwork b) as [chainId | err].
  2: { cbn [fst snd on_app walletConnected]. split; split;
       [done | by intros (_ & _ & ? & _) | by left
        | by intros [? | (_ & _ & ?)]]. }
  destruct (chainId =? SEPOLIA) eqn:Hchain; cbn [negb].
  - apply Z.eqb_eq in Hchain as ->.
    destruct (getBalance b) as [wei | err];
      cbn [fst snd on_app setWalletConnected setContractBalance
           walletConnected].
    + split; split; try done; intros _.
      * split_and!; [done | by eexists | done | by eexists].
      * right. split_and!; [done | by eexists | done].
    + split; split; try done.
      * by intros (_ & _ & _ & [? ?]).
      * intros _. right. split_and!; [done | by eexists | done].
  - apply Z.eqb_neq in Hchain.
    cbn [fst snd on_app walletConnected]. split; split;
      [done | intros (_ & _ & [= ?] & _); done | by left
       | intros [? | (_ & _ & [= ?])]; done].
Qed.

(** ** The status check, on its other paths *)

(** X27: when the three reads of the status check succeed, the
    settleability flag is what the registry's [canBeSettled] answered,
    the oracle's record is shown with its settlement time rendered by
    the locale (or [N/A] when the field is missing), no error is set and
    the loading flag is cleared. *)
Theorem checkClaimStatus_reads w idToCheck st details a settleable :
  truthy (idToUse idToCheck st) = true ->
  window_ethereum w = true ->
  Client.getClaimDetails w (idToUse idToCheck st) = Fulfilled details ->
  Client.getAssertion w (idToUse idToCheck st) = Fulfilled a ->
  Client.canBeSettled w (idToUse idToCheck st) = Fulfilled settleable ->
  let st' := checkClaimStatus w idToCheck st in
  canSettle st' = settleable /\
  assertionDetails st' =
    Some {| ad_validated := a_validated a;
            ad_resolved := a_resolved a;
            ad_settlementResolution := a_settlementResolution a;
            ad_asserter := a_asserter a;
            ad_challenger := a_challenger a;
            ad_settlementTimestamp :=
              match a_settlementTimestamp a with
              | Some t => toLocaleString w (t * 1000)
              | None => "N/A"
              end |} /\
  error st' = EmptyString /\
  loading st' = false.
Proof.
  intros Hid Hw Hdetails Hassertion Hsettle st'. subst st'.
  unfold checkClaimStatus. rewrite Hid, Hw, Hdetails. cbn [negb].
  unfold readAssertion. rewrite Hassertion, Hsettle.
  by repeat split.
Qed.

(** X28: when the read of the claim details fails, or the provider
    cannot be built, the status check shows [Error checking claim] with
    the message of the failure, clears the loading flag, and leaves the
    claim status, the oracle's record and the settleability flag as they
    were. *)
Theorem checkClaimStatus_primary_failure w idToCheck st :
  truthy (idToUse idToCheck st) = true ->
  (window_ethereum w = false ->
   error (checkClaimStatus w idToCheck st)
   = "Error checking claim: " +:+ provider_error w) /\
  (forall m,
     window_ethereum w = true ->
     Client.getClaimDetails w (idToUse idToCheck st) = Rejected m ->
     error (checkClaimStatus w idToCheck st)
     = "Error checking claim: " +:+ m) /\
  (window_ethereum w = false \/
   (exists m, Client.getClaimDetails w (idToUse idToCheck st) = Rejected m) ->
   loading (checkClaimStatus w idToCheck st) = false /\
   claimStatus (checkClaimStatus w idToCheck st) = claimStatus st /\
   assertionDetails (checkClaimStatus w idToCheck st) = assertionDetails st /\
   canSettle (checkClaimStatus w idToCheck st) = canSettle st).
Proof.
  intros Hid. unfold checkClaimStatus. rewrite Hid. cbn [negb].
  split_and!.
  - by intros ->.
  - by intros m -> ->.
  - intros [-> | [m Hm]]; [done |].
    rewrite Hm. by destruct (window_ethereum w).
Qed.

(** ** Finding the identifier by transaction hash *)

(** X29: given a transaction hash and the provider, a receipt that is
    not there yet is reported as such; a receipt from which the
    identifier [id] is recovered makes [id] the assertion id of the
    page, puts it in the result and runs the status check for [id]; in
    both cases the loading flag ends cleared. *)
Theorem find_by_hash_outcome b p :
  truthy (txHash p) = true ->
  window_ethereum (world b) = true ->
  (getTransactionReceipt b (txHash p) = Resolved None ->
   error (app (findAssertionIdFromTxHash b p))
   = "Transaction not found or not confirmed yet" /\
   loading (app (findAssertionIdFromTxHash b p)) = false /\
   assertionId (app (findAssertionIdFromTxHash b p)) = assertionId (app p)) /\
  (forall logs id,
     getTransactionReceipt b (txHash p) = Resolved (Some logs) ->
     findAssertionIdFromReceipt b logs = Some id ->
     truthy id = true ->
     assertionId (app (findAssertionIdFromTxHash b p)) = id /\
     result (findAssertionIdFromTxHash b p)
     = Some (found_result (result p) id) /\
     loading (app (findAssertionIdFromTxHash b p)) = false /\
     app (findAssertionIdFromTxHash b p)
     = setLoading false
         (checkClaimStatus (world b) (Some id)
            (setAssertionId id
               (setError EmptyString (setLoading true (app p)))))).
Proof.
  intros Hhash Hw. unfold findAssertionIdFromTxHash. rewrite Hhash.
  cbn [negb]. unfold findAssertionIdFromTxHash_try.
  cbn [on_app txHash result app]. rewrite Hw. split.
  - intros ->. by repeat split.
  - intros logs id -> -> Hid. rewrite Hid.
    cbn [fst snd on_app setResult app result].
    assert (truthy (idToUse (Some id)
              (setAssertionId id
                 (setError EmptyString (setLoading true (app p))))) = true)
      as Hused.
    { cbn [idToUse]. by rewrite Hid. }
    split_and!; try reflexivity.
    unfold checkClaimStatus. rewrite Hused. cbn [negb].
    cbn [idToUse]. rewrite Hid.
    destruct (window_ethereum (world b)); [| reflexivity].
    destruct (Client.getClaimDetails (world b) id) as [d | m];
      [| reflexivity].
    unfold readAssertion.
    destruct (Client.getAssertion (world b) id) as [a | m]; [| reflexivity].
    by destruct (Client.canBeSettled (world b) id).
Qed.

(** ** The actions on an example page *)

Lemma receipt_prefers_ClaimSubmitted_witness :
  findAssertionIdFromReceipt
    (example_browser (Resolved "0xabc") (Resolved "0xdef") (Resolved []))
    ([oracle_log] ++ registry_log :: [oracle_log])
  = Some "0x07".
Proof.
  apply (receipt_prefers_ClaimSubmitted
           (example_browser (Resolved "0xabc") (Resolved "0xdef")
                            (Resolved []))
           [oracle_log] registry_log [oracle_log] "0x07").
  - repeat constructor.
  - vm_compute. reflexivity.
Defined.

Lemma submit_needs_both_fields_witness :
  let b := example_browser (Resolved "0xabc") (Resolved "0xdef")
                           (Resolved []) in
  let p := example_page EmptyString "Life is short, test in prod" "0x07" in
  snd (submitClaim b p) = [] /\
  error (app (fst (submitClaim b p)))
  = "Please enter both Twitter handle and tweet text" /\
  result (fst (submitClaim b p)) = None /\
  loading (app (fst (submitClaim b p))) = loading (app p) /\
  walletConnected (fst (submitClaim b p)) = walletConnected p /\
  txHash (fst (submitClaim b p)) = txHash p /\
  assertionId (app (fst (submitClaim b p))) = assertionId (app p).
Proof.
  apply (submit_needs_both_fields
           (example_browser (Resolved "0xabc") (Resolved "0xdef")
                            (Resolved []))
           (example_page EmptyString "Life is short, test in prod" "0x07")).
  left. vm_compute. reflexivity.
Defined.

Lemma submit_sends_clean_handle_witness :
  snd (submitClaim
         (example_browser (Resolved "0xabc") (Resolved "0xdef")
                          (Resolved []))
         (example_page "@" "Life is short, test in prod" "0x07"))
  = [Send_submitClaim EmptyString "Life is short, test in prod"].
Proof.
  apply (submit_sends_clean_handle
           (example_browser (Resolved "0xabc") (Resolved "0xdef")
                            (Resolved []))
           (example_page "@" "Life is short, test in prod" "0x07")
           EmptyString).
  - vm_compute. reflexivity.
  - vm_compute. reflexivity.
  - vm_compute. reflexivity.
  - vm_compute. reflexivity.
Defined.

Lemma submit_recovers_id_witness :
  let b := example_browser (Resolved "0xabc") (Resolved "0xdef")
                           (Resolved [oracle_log; registry_log]) in
  let p := example_page "@drextron" "Life is short, test in prod"
                        EmptyString in
  assertionId (app (fst (submitClaim b p))) = "0x07" /\
  txHash (fst (submitClaim b p)) = "0xabc" /\
  result (fst (submitClaim b p)) = Some (claim_processed "0xabc" "0x07") /\
  error (app (fst (submitClaim b p))) = EmptyString /\
  loading (app (fst (submitClaim b p))) = false.
Proof.
  apply (submit_recovers_id
           (example_browser (Resolved "0xabc") (Resolved "0xdef")
                            (Resolved [oracle_log; registry_log]))
           (example_page "@drextron" "Life is short, test in prod"
                         EmptyString)
           "0xabc" [oracle_log; registry_log] "0x07").
  all: vm_compute; reflexivity.
Defined.

Lemma submit_failure_surfaces_witness :
  let b := example_browser (Resolved "0xabc") (Resolved "0xdef")
                           (Thrown (thrown "transaction failed")) in
  let p := example_page "@drextron" "Life is short, test in prod" "0x05" in
  txHash (fst (submitClaim b p)) = "0xabc" /\
  result (fst (submitClaim b p)) = Some (claim_submitted "0xabc") /\
  error (app (fst (submitClaim b p)))
  = "Error submitting claim: " +:+ errorMessage (thrown "transaction failed") /\
  loading (app (fst (submitClaim b p))) = false /\
  assertionId (app (fst (submitClaim b p))) = assertionId (app p).
Proof.
  apply (proj1 (submit_failure_surfaces
                  (example_browser (Resolved "0xabc") (Resolved "0xdef")
                     (Thrown (thrown "transaction failed")))
                  (example_page "@drextron" "Life is short, test in prod"
                                "0x05")
                  (thrown "transaction failed")
                  eq_refl eq_refl eq_refl eq_refl) "0xabc").
  - vm_compute. reflexivity.
  - vm_compute. reflexivity.
Defined.

Lemma settle_ignores_canSettle_witness :
  snd (settleClaim
         (example_browser (Resolved "0xabc") (Resolved "0xdef")
                          (Resolved []))
         (on_app (setCanSettle false)
                 (example_page "@drextron" "Life is short, test in prod"
                               "0x07")))
  = [Send_settleAndGetAssertionResult "0x07"].
Proof.
  apply (settle_ignores_canSettle
           (example_browser (Resolved "0xabc") (Resolved "0xdef")
                            (Resolved []))
           (example_page "@drextron" "Life is short, test in prod" "0x07")
           false).
  all: vm_compute; reflexivity.
Defined.

Lemma settle_failure_is_classified_witness :
  let p := example_page "@drextron" "Life is short, test in prod" "0x07" in
  (error (app (fst (settleClaim
     (example_browser (Resolved "0xabc")
        (Thrown (thrown "Assertion not expired: challenge period"))
        (Resolved [])) p))) = not_yet_message /\
   loading (app (fst (settleClaim
     (example_browser (Resolved "0xabc")
        (Thrown (thrown "Assertion not expired: challenge period"))
        (Resolved [])) p))) = false) /\
  (error (app (fst (settleClaim
     (example_browser (Resolved "0xabc")
        (Thrown (thrown "Insufficient contract balance"))
        (Resolved [])) p)))
   = "Error settling claim: Insufficient contract balance" /\
   loading (app (fst (settleClaim
     (example_browser (Resolved "0xabc")
        (Thrown (thrown "Insufficient contract balance"))
        (Resolved [])) p))) = false).
Proof.
  intros p. split.
  - apply (proj1 (settle_failure_is_classified
                    (example_browser (Resolved "0xabc")
                       (Thrown (thrown
                                  "Assertion not expired: challenge period"))
                       (Resolved []))
                    p
                    (thrown "Assertion not expired: challenge period")
                    eq_refl eq_refl eq_refl (or_introl eq_refl))).
    vm_compute. reflexivity.
  - apply (proj2 (settle_failure_is_classified
                    (example_browser (Resolved "0xabc")
                       (Thrown (thrown "Insufficient contract balance"))
                       (Resolved []))
                    p
                    (thrown "Insufficient contract balance")
                    eq_refl eq_refl eq_refl (or_introl eq_refl))).
    + vm_compute. reflexivity.
    + vm_compute. reflexivity.
Defined.

Lemma already_resolved_notice_is_overwritten_witness :
  let b := example_browser (Resolved "0xabc") (Resolved "0xdef")
             (Thrown (thrown "Assertion already resolved")) in
  let p := example_page "@drextron" "Life is short, test in prod" "0x07" in
  error (app (fst (settleClaim b p))) = EmptyString \/
  exists m, error (app (fst (settleClaim b p)))
            = "Error checking claim: " +:+ m.
Proof.
  apply (already_resolved_notice_is_overwritten
           (example_browser (Resolved "0xabc") (Resolved "0xdef")
              (Thrown (thrown "Assertion already resolved")))
           (example_page "@drextron" "Life is short, test in prod" "0x07")
           (thrown "Assertion already resolved")).
  - vm_compute. reflexivity.
  - vm_compute. reflexivity.
  - vm_compute. reflexivity.
  - right. exists "0xdef". split; vm_compute; reflexivity.
  - vm_compute. reflexivity.
  - vm_compute. reflexivity.
Defined.

Lemma checkClaimStatus_reads_witness :
  let st' := checkClaimStatus readable_world (Some "0x07") idle in
  canSettle st' = false /\
  assertionDetails st' =
    Some {| ad_validated := false; ad_resolved := true;
            ad_settlementResolution := true; ad_asserter := "0x5Afe";
            ad_challenger := "0x0000";
            ad_settlementTimestamp := "11/15/2023" |} /\
  error st' = EmptyString /\
  loading st' = false.
Proof.
  apply (checkClaimStatus_reads readable_world (Some "0x07") idle
           pending_details settled_record false).
  all: vm_compute; reflexivity.
Defined.

Lemma checkClaimStatus_primary_failure_witness :
  error (checkClaimStatus offline_world None idle)
  = "Error checking claim: unsupported provider" /\
  loading (checkClaimStatus offline_world None idle) = false /\
  claimStatus (checkClaimStatus offline_world None idle) = None /\
  assertionDetails (checkClaimStatus offline_world None idle) = None /\
  canSettle (checkClaimStatus offline_world None idle) = false.
Proof.
  destruct (checkClaimStatus_primary_failure offline_world None idle)
    as (Hprovider & _ & Hrest).
  - vm_compute. reflexivity.
  - split.
    + apply Hprovider. vm_compute. reflexivity.
    + apply Hrest. left. vm_compute. reflexivity.
Defined.

Lemma find_by_hash_outcome_witness :
  let b := example_browser (Resolved "0xabc") (Resolved "0xdef")
                           (Resolved [oracle_log; registry_log]) in
  let p := example_page "@drextron" "Life is short, test in prod"
                        EmptyString in
  assertionId (app (findAssertionIdFromTxHash b p)) = "0x07" /\
  result (findAssertionIdFromTxHash b p)
  = Some (found_result None "0x07") /\
  loading (app (findAssertionIdFromTxHash b p)) = false /\
  app (findAssertionIdFromTxHash b p)
  = setLoading false
      (checkClaimStatus oracle_unreachable (Some "0x07")
         (setAssertionId "0x07"
            (setError EmptyString (setLoading true (app p))))).
Proof.
  apply (proj2 (find_by_hash_outcome
                  (example_browser (Resolved "0xabc") (Resolved "0xdef")
                     (Resolved [oracle_log; registry_log]))
                  (example_page "@drextron" "Life is short, test in prod"
                                EmptyString)
                  eq_refl eq_refl)
               [oracle_log; registry_log] "0x07").
  all: vm_compute; reflexivity.
Defined.

End PagesFacts.
